(** * market.py: stock and price reconciliation for the marketplace API

    A shallow embedding of [src/market.py] and the properties of its
    reconciliation core ([create_stocks], [create_prices]) and of its
    upload drivers ([upload_prices], [upload_stocks], [main]).

    Python values are modelled by [pyval], Python lists by [seq], the
    in-place mutation of [offer_ids] by returning the final list next to
    the outcome, exceptions by [outcome], and the calls to the outside
    world (HTTP requests, [print]) by a log of events answered by a
    deterministic environment. *)

From Stdlib Require Import ZArith String Ascii DecimalString DecimalPos Lia.
From HB Require Import structures.
Set Warnings "-notation-overridden".
From mathcomp Require Import boot.
Set Warnings "notation-overridden,-rewrite-rw".

Set Implicit Arguments.
Unset Strict Implicit.
Unset Printing Implicit Defensive.

Local Open Scope string_scope.
Local Open Scope seq_scope.

HB.instance Definition _ := hasDecEq.Build string String.eqb_spec.
HB.instance Definition _ := hasDecEq.Build ascii Ascii.eqb_spec.
HB.instance Definition _ := hasDecEq.Build Z Z.eqb_spec.

(** ** Python values and exceptions *)

(** The exception classes the program can meet.  [ReadTimeout],
    [ConnectTimeout], [ConnectionError] and [HTTPError] come from
    [requests]; [ValueError], [TypeError] and [AttributeError] are raised
    by the interpreter; [EnvError] is raised by [environs] for a variable
    that is not set; [OtherError] stands for any other subclass of
    [Exception].  The text of an exception is not modelled. *)
Inductive exn : Type :=
| ReadTimeout
| ConnectTimeout
| ConnectionError
| HTTPError
| ValueError
| TypeError
| AttributeError
| EnvError
| OtherError.

(** [requests.exceptions.ConnectTimeout] derives from [ConnectionError]. *)
Definition isinstance_ConnectionError (e : exn) : bool :=
  match e with
  | ConnectionError | ConnectTimeout => true
  | _ => false
  end.

Definition isinstance_ReadTimeout (e : exn) : bool :=
  match e with
  | ReadTimeout => true
  | _ => false
  end.

(** What a call of the program does: it returns a value or raises an
    exception.  [NoAnswer] is for inputs on which the model says nothing:
    [int] applied to text beyond its modelled domain, or a loop stopped
    by its bound on the number of rounds.  It is not an exception and no
    handler sees it. *)
Inductive outcome (A : Type) : Type :=
| Returns (a : A)
| Raises (e : exn)
| NoAnswer.
Arguments Returns {A} a.
Arguments Raises {A} e.
Arguments NoAnswer {A}.

(** What the world, or a function taken as a parameter, answers: a value
    or an exception. *)
Inductive result (A : Type) : Type :=
| Ok (a : A)
| Raise (e : exn).
Arguments Ok {A} a.
Arguments Raise {A} e.

(** The interpreter limits the number of digits in conversions between
    [int] and [str]; the limit can be changed or lifted, but not set
    below 640 digits.  The conversions are modelled up to that size. *)
Definition max_str_digits : nat := 640.

Definition small (n : Z) : bool := (Z.abs n <? 10 ^ Z.of_nat max_str_digits)%Z.

(** An integer written with at most 640 digits. *)
Record small_int : Type := SmallInt {
  int_val : Z;
  int_small : small int_val
}.
Arguments SmallInt : clear implicits.

(** The values a cell of the inventory table can hold: a missing key or
    [None] (what [dict.get] answers for both), a string (its bytes, in
    UTF-8), an integer.  Cells of other types, floating-point numbers
    among them, are outside the model. *)
Inductive pyval : Type :=
| PNone
| PStr (s : string)
| PInt (n : small_int).

(** [str(v)] *)
Definition py_str (v : pyval) : string :=
  match v with
  | PNone => "None"
  | PStr s => s
  | PInt n => NilZero.string_of_int (Z.to_int (int_val n))
  end.

(** *** [int(s)] on a string, base 10

    Leading and trailing whitespace is stripped, one sign is allowed, and
    the digits may be grouped by single underscores.  The reading is
    modelled for ASCII text of at most 640 characters without the
    separators 28 to 31: beyond ASCII the interpreter also takes the
    digits and spaces of other scripts, on longer text its limit on the
    number of digits may apply, and the separators have not been treated
    as whitespace by all its versions. *)

(** Tab, line feed, vertical tab, form feed, carriage return, space. *)
Definition is_space (c : ascii) : bool :=
  let n := nat_of_ascii c in
  ((9 <= n) && (n <= 13)) || (n == 32).

Definition digit_of (c : ascii) : option Z :=
  let n := nat_of_ascii c in
  if (48 <= n) && (n <= 57) then Some (Z.of_nat (n - 48)) else None.

Definition is_digit (c : ascii) : bool := isSome (digit_of c).

Fixpoint lstrip (s : seq ascii) : seq ascii :=
  match s with
  | c :: r => if is_space c then lstrip r else s
  | [::] => [::]
  end.

Definition strip (s : seq ascii) : seq ascii := rev (lstrip (rev (lstrip s))).

(** Digits after the first one: a digit, or an underscore followed by a
    digit. *)
Fixpoint digits_after (acc : Z) (s : seq ascii) : option Z :=
  match s with
  | [::] => Some acc
  | c :: r =>
    if c == "_"%char then
      match r with
      | d :: _ => if is_digit d then digits_after acc r else None
      | [::] => None
      end
    else
      match digit_of c with
      | Some d => digits_after (10 * acc + d) r
      | None => None
      end
  end.

Definition digits (s : seq ascii) : option Z :=
  match s with
  | c :: r =>
    match digit_of c with
    | Some d => digits_after d r
    | None => None
    end
  | [::] => None
  end.

Definition int_of_str (s : string) : option Z :=
  match strip (list_ascii_of_string s) with
  | c :: r =>
    if c == "-"%char then omap Z.opp (digits r)
    else if c == "+"%char then digits r
    else digits (c :: r)
  | [::] => None
  end.

(** The text on which [int] is modelled. *)
Definition plain (s : string) : bool :=
  all (fun c => let n := nat_of_ascii c in (n < 128) && ~~ ((28 <= n) && (n <= 31)))
      (list_ascii_of_string s)
  && (String.length s <= max_str_digits).

(** [int(v)] *)
Definition py_int (v : pyval) : outcome Z :=
  match v with
  | PNone => Raises TypeError
  | PInt n => Returns (int_val n)
  | PStr s =>
    if plain s then
      match int_of_str s with
      | Some n => Returns n
      | None => Raises ValueError
      end
    else NoAnswer
  end.

(** [l.remove(x)]: drops the first occurrence, raises when there is none. *)
Definition list_remove (x : string) (l : seq string) : outcome (seq string) :=
  if x \in l then Returns (rem x l) else Raises ValueError.

(** ** Data model *)

(** One row of the inventory table ([watch] in the source), read only
    through [watch.get]: [Kod] is the key "Код", [Kolichestvo] the key
    "Количество", [Tsena] the key "Цена". *)
Record watch : Type := Watch {
  Kod : pyval;
  Kolichestvo : pyval;
  Tsena : pyval
}.

(** An element of ["items"] in a stock entry. *)
Record stock_item : Type := StockItem {
  item_count : Z;
  item_type : string;
  item_updatedAt : string
}.

(** A stock entry: the dictionary with keys "sku", "warehouseId", "items". *)
Record stock : Type := Stock {
  sku : string;
  warehouseId : string;
  items : seq stock_item
}.

(** The "price" object of a price entry. *)
Record price_value : Type := PriceValue {
  value : Z;
  currencyId : string
}.

(** A price entry: the dictionary with keys "id" and "price". *)
Record price : Type := Price {
  price_id : string;
  price_price : price_value
}.

(** The dictionary literal appended by both loops of [create_stocks]. *)
Definition stock_entry (sku_ warehouse_id : string) (count_ : Z) (date : string) : stock :=
  Stock sku_ warehouse_id [:: StockItem count_ "FIT" date].

(** The count of a stock entry: [stock.get("items")[0].get("count")]. *)
Definition count_of (e : stock) : option Z := omap item_count (ohead (items e)).

(** ** create_stocks *)

(** Lines 197-203: the count taken from the cell "Количество". *)
Definition stock_of_quantity (quantity : pyval) : outcome Z :=
  let count_ := py_str quantity in
  if count_ == ">10" then Returns 100%Z
  else if count_ == "1" then Returns 0%Z
  else py_int quantity.

Section CreateStocks.

Variables (warehouse_id date : string).

(** The first [for] loop (lines 195-217).  The state is the pair of the
    list [stocks] built so far and the caller's [offer_ids], which the
    loop mutates; the final [offer_ids] is returned also when the loop
    raises, since the caller's list keeps the removals made before. *)
Fixpoint create_stocks_matched (watch_remnants : seq watch)
    (offer_ids : seq string) (stocks : seq stock)
  : outcome (seq stock) * seq string :=
  match watch_remnants with
  | [::] => (Returns stocks, offer_ids)
  | watch :: rest =>
    if py_str (Kod watch) \in offer_ids then
      match stock_of_quantity (Kolichestvo watch) with
      | Returns n =>
        let stocks := rcons stocks (stock_entry (py_str (Kod watch)) warehouse_id n date) in
        match list_remove (py_str (Kod watch)) offer_ids with
        | Returns offer_ids => create_stocks_matched rest offer_ids stocks
        | Raises e => (Raises e, offer_ids)
        | NoAnswer => (NoAnswer, offer_ids)
        end
      | Raises e => (Raises e, offer_ids)
      | NoAnswer => (NoAnswer, offer_ids)
      end
    else create_stocks_matched rest offer_ids stocks
  end.

(** The second [for] loop (lines 219-232). *)
Definition create_stocks_missing (offer_ids : seq string) (stocks : seq stock) : seq stock :=
  stocks ++ [seq stock_entry offer_id warehouse_id 0 date | offer_id <- offer_ids].

End CreateStocks.

(** [create_stocks(watch_remnants, offer_ids, warehouse_id)].  [date] is
    the string computed once from the clock at line 194.  The second
    component is the caller's [offer_ids] after the call. *)
Definition create_stocks (watch_remnants : seq watch) (offer_ids : seq string)
    (warehouse_id date : string) : outcome (seq stock) * seq string :=
  match create_stocks_matched warehouse_id date watch_remnants offer_ids [::] with
  | (Returns stocks, offer_ids) =>
    (Returns (create_stocks_missing warehouse_id date offer_ids stocks), offer_ids)
  | (Raises e, offer_ids) => (Raises e, offer_ids)
  | (NoAnswer, offer_ids) => (NoAnswer, offer_ids)
  end.

(** ** create_prices *)

Section CreatePrices.

(** [price_conversion] is imported from the module [seller] and is not
    defined in [market.py]: it is a parameter here, a function from the
    cell "Цена" to a value or an exception. *)
Variable price_conversion : pyval -> result pyval.

(** [int(price_conversion(watch.get("Цена")))] *)
Definition price_of (watch : watch) : outcome Z :=
  match price_conversion (Tsena watch) with
  | Ok v => py_int v
  | Raise e => Raises e
  end.

(** The [for] loop of [create_prices] (lines 258-272); [offer_ids] is
    only read. *)
Fixpoint create_prices_loop (watch_remnants : seq watch) (offer_ids : seq string)
    (prices : seq price) : outcome (seq price) :=
  match watch_remnants with
  | [::] => Returns prices
  | watch :: rest =>
    if py_str (Kod watch) \in offer_ids then
      match price_of watch with
      | Returns n =>
        let price_ := Price (py_str (Kod watch)) (PriceValue n "RUR") in
        create_prices_loop rest offer_ids (rcons prices price_)
      | Raises e => Raises e
      | NoAnswer => NoAnswer
      end
    else create_prices_loop rest offer_ids prices
  end.

(** [create_prices(watch_remnants, offer_ids)] *)
Definition create_prices (watch_remnants : seq watch) (offer_ids : seq string)
  : outcome (seq price) :=
  create_prices_loop watch_remnants offer_ids [::].

(** The entry of a row, or the exception its price raises. *)
Definition price_result (w : watch) : outcome price :=
  match price_of w with
  | Returns n => Returns (Price (py_str (Kod w)) (PriceValue n "RUR"))
  | Raises e => Raises e
  | NoAnswer => NoAnswer
  end.

End CreatePrices.

(** ** The outside world *)

(** A request the program sends.  [DownloadStock] is the call of
    [download_stock()] of [seller]; the three others are the HTTP
    requests of [get_product_list], [update_stocks] and [update_price]. *)
Inductive request : Type :=
| DownloadStock
| GetProductList (page campaign_id access_token : string)
| UpdateStocks (stocks : seq stock) (campaign_id access_token : string)
| UpdatePrice (prices : seq price) (campaign_id access_token : string).

(** What the run leaves behind, oldest first: the requests sent, each
    with the exception it ended in if any, and the calls of [print], with
    the exception printed if any and the text. *)
Inductive event : Type :=
| Call (r : request) (failure : option exn)
| Print (error : option exn) (text : string).

(** An entry of "offerMappingEntries", reduced to the field read:
    [product.get("offer").get("shopSku")]. *)
Record product : Type := Product { shopSku : string }.

(** The value of the key "result" of a listing answer: the entries of
    the page and the token of the next page.  A token that is absent,
    null or empty ends the listing; all three are the empty string here.
    An answer that lacks the keys read makes [get_offer_ids] raise; the
    world gives such an answer as an exception. *)
Record listing : Type := Listing {
  offerMappingEntries : seq product;
  nextPageToken : string
}.

(** The world answers every request, as a function of what happened
    before; [environ] is the process environment read through [Env()] and
    [utcnow] the clock. *)
Record world : Type := World {
  environ : string -> option string;
  download_stock_answer : seq event -> result (seq watch);
  get_answer : seq event -> string -> string -> string -> result listing;
  put_answer : seq event -> seq stock -> string -> string -> option exn;
  post_answer : seq event -> seq price -> string -> string -> option exn;
  utcnow : seq event -> string
}.

(** *** Computations

    A computation takes the log so far and gives an outcome and the log
    extended. *)

Definition M (A : Type) : Type := seq event -> outcome A * seq event.

Definition ret (A : Type) (a : A) : M A := fun log => (Returns a, log).

Definition raise (A : Type) (e : exn) : M A := fun log => (Raises e, log).
Arguments raise {A} e.

Definition bind (A B : Type) (m : M A) (k : A -> M B) : M B :=
  fun log =>
    match m log with
    | (Returns a, log') => k a log'
    | (Raises e, log') => (Raises e, log')
    | (NoAnswer, log') => (NoAnswer, log')
    end.

Notation "'let*' x ':=' m 'in' k" := (bind m (fun x => k))
  (at level 10, x name, m at level 100, k at level 200).

(** A call that touches nothing outside. *)
Definition lift (A : Type) (o : outcome A) : M A := fun log => (o, log).

(** [try: m except Exception as e: handler e] *)
Definition try_except (A : Type) (m : M A) (handler : exn -> M A) : M A :=
  fun log =>
    match m log with
    | (Raises e, log') => handler e log'
    | r => r
    end.

(** [for x in l: body x] *)
Fixpoint for_ (A : Type) (l : seq A) (body : A -> M unit) : M unit :=
  match l with
  | [::] => ret tt
  | x :: l' => let* _ := body x in for_ l' body
  end.

(** An object made by calling an [async def] function: the body, not yet
    run.  Nothing runs it unless it is awaited or handed to an event
    loop. *)
Inductive coroutine (A : Type) : Type :=
| Coroutine (body : M A).

(** Driving a coroutine to its end.  The bodies here contain no [await],
    so they run in one go. *)
Definition await (A : Type) (c : coroutine A) : M A :=
  let: Coroutine body := c in body.

Section Program.

(** [divide] and [price_conversion] are imported from the module
    [seller] and are not defined in [market.py]: they are parameters.
    [divide l n] is the list of the chunks that [list(divide(l, n))]
    builds. *)
Variable divide : forall A : Type, seq A -> nat -> seq (seq A).
Variable price_conversion : pyval -> result pyval.
Variable W : world.

(** [print(text)] and [print(error, text)] *)
Definition print (error : option exn) (text : string) : M unit :=
  fun log => (Returns tt, rcons log (Print error text)).

(** [env.str(name)] *)
Definition env_str (name : string) : M string :=
  match environ W name with
  | Some v => ret v
  | None => raise EnvError
  end.

(** [download_stock()] *)
Definition download_stock : M (seq watch) :=
  fun log =>
    match download_stock_answer W log with
    | Ok l => (Returns l, rcons log (Call DownloadStock None))
    | Raise e => (Raises e, rcons log (Call DownloadStock (Some e)))
    end.

(** [get_product_list(page, campaign_id, access_token)] *)
Definition get_product_list (page campaign_id access_token : string) : M listing :=
  fun log =>
    let r := GetProductList page campaign_id access_token in
    match get_answer W log page campaign_id access_token with
    | Ok l => (Returns l, rcons log (Call r None))
    | Raise e => (Raises e, rcons log (Call r (Some e)))
    end.

(** [update_stocks(stocks, campaign_id, access_token)]; the answer is
    dropped by every caller. *)
Definition update_stocks (stocks : seq stock) (campaign_id access_token : string) : M unit :=
  fun log =>
    let r := UpdateStocks stocks campaign_id access_token in
    match put_answer W log stocks campaign_id access_token with
    | None => (Returns tt, rcons log (Call r None))
    | Some e => (Raises e, rcons log (Call r (Some e)))
    end.

(** [update_price(prices, campaign_id, access_token)] *)
Definition update_price (prices : seq price) (campaign_id access_token : string) : M unit :=
  fun log =>
    let r := UpdatePrice prices campaign_id access_token in
    match post_answer W log prices campaign_id access_token with
    | None => (Returns tt, rcons log (Call r None))
    | Some e => (Raises e, rcons log (Call r (Some e)))
    end.

(** The [while True] loop of [get_offer_ids] (lines 156-161), cut after
    [fuel] pages. *)
Fixpoint get_offer_ids_pages (fuel : nat) (page : string) (product_list : seq product)
    (campaign_id market_token : string) : M (seq product) :=
  match fuel with
  | 0 => fun log => (NoAnswer, log)
  | fuel'.+1 =>
    let* some_prod := get_product_list page campaign_id market_token in
    let product_list := product_list ++ offerMappingEntries some_prod in
    let page := nextPageToken some_prod in
    if page == "" then ret product_list
    else get_offer_ids_pages fuel' page product_list campaign_id market_token
  end.

(** [get_offer_ids(campaign_id, market_token)] *)
Definition get_offer_ids (fuel : nat) (campaign_id market_token : string) : M (seq string) :=
  let* product_list := get_offer_ids_pages fuel "" [::] campaign_id market_token in
  ret [seq shopSku product | product <- product_list].

(** The call [create_stocks(watch_remnants, offer_ids, warehouse_id)]:
    the clock is read, then the lists are built.  The list [offer_ids]
    is not read again by any caller, so its final state is dropped. *)
Definition create_stocks_now (watch_remnants : seq watch) (offer_ids : seq string)
    (warehouse_id : string) : M (seq stock) :=
  fun log => lift (create_stocks watch_remnants offer_ids warehouse_id (utcnow W log)).1 log.

(** [async def upload_prices(watch_remnants, campaign_id, market_token)] *)
Definition upload_prices (fuel : nat) (watch_remnants : seq watch)
    (campaign_id market_token : string) : coroutine (seq price) :=
  Coroutine (
    let* offer_ids := get_offer_ids fuel campaign_id market_token in
    let* prices := lift (create_prices price_conversion watch_remnants offer_ids) in
    let* _ := for_ (divide prices 500)
                (fun some_prices => update_price some_prices campaign_id market_token) in
    ret prices).

(** [async def upload_stocks(watch_remnants, campaign_id, market_token,
    warehouse_id)] *)
Definition upload_stocks (fuel : nat) (watch_remnants : seq watch)
    (campaign_id market_token warehouse_id : string)
  : coroutine (seq stock * seq stock) :=
  Coroutine (
    let* offer_ids := get_offer_ids fuel campaign_id market_token in
    let* stocks := create_stocks_now watch_remnants offer_ids warehouse_id in
    let* _ := for_ (divide stocks 2000)
                (fun some_stock => update_stocks some_stock campaign_id market_token) in
    let not_empty := [seq stock <- stocks | count_of stock != Some 0%Z] in
    ret (not_empty, stocks)).

(** The handlers of [main] (lines 322-327), tried in order. *)
Definition main_except (error : exn) : M unit :=
  if isinstance_ReadTimeout error then print None "Превышено время ожидания..."
  else if isinstance_ConnectionError error then print (Some error) "Ошибка соединения"
  else print (Some error) "ERROR_2".

(** The body of the [try] block of [main] (lines 305-321).  Calling
    [upload_prices] makes a coroutine object; [main] does nothing with
    it. *)
Definition main_try (fuel : nat) (watch_remnants : seq watch)
    (market_token campaign_fbs_id campaign_dbs_id warehouse_fbs_id warehouse_dbs_id : string)
  : M unit :=
  let* offer_ids := get_offer_ids fuel campaign_fbs_id market_token in
  let* stocks := create_stocks_now watch_remnants offer_ids warehouse_fbs_id in
  let* _ := for_ (divide stocks 2000)
              (fun some_stock => update_stocks some_stock campaign_fbs_id market_token) in
  let _ := upload_prices fuel watch_remnants campaign_fbs_id market_token in
  let* offer_ids := get_offer_ids fuel campaign_dbs_id market_token in
  let* stocks := create_stocks_now watch_remnants offer_ids warehouse_dbs_id in
  let* _ := for_ (divide stocks 2000)
              (fun some_stock => update_stocks some_stock campaign_dbs_id market_token) in
  let _ := upload_prices fuel watch_remnants campaign_dbs_id market_token in
  ret tt.

(** [main()] *)
Definition main (fuel : nat) : M unit :=
  let* market_token := env_str "MARKET_TOKEN" in
  let* campaign_fbs_id := env_str "FBS_ID" in
  let* campaign_dbs_id := env_str "DBS_ID" in
  let* warehouse_fbs_id := env_str "WAREHOUSE_FBS_ID" in
  let* warehouse_dbs_id := env_str "WAREHOUSE_DBS_ID" in
  let* watch_remnants := download_stock in
  try_except
    (main_try fuel watch_remnants market_token campaign_fbs_id campaign_dbs_id
       warehouse_fbs_id warehouse_dbs_id)
    main_except.

(** The block that [main_try] holds once for each campaign (lines 306-310
    and 315-319): list the offers, build the stocks, send them in chunks.
    It is used to state what one campaign's part of a run does. *)
Definition sync_stocks (fuel : nat) (watch_remnants : seq watch)
    (campaign_id market_token warehouse_id : string) : M unit :=
  let* offer_ids := get_offer_ids fuel campaign_id market_token in
  let* stocks := create_stocks_now watch_remnants offer_ids warehouse_id in
  for_ (divide stocks 2000)
    (fun some_stock => update_stocks some_stock campaign_id market_token).

End Program.

(** ** Notions used to state the properties *)

(** The codes of the inventory rows, as the loops compare them. *)
Definition codes (watch_remnants : seq watch) : seq string :=
  [seq py_str (Kod w) | w <- watch_remnants].

(** The entry a matched row yields, or the exception its quantity raises. *)
Definition entry_result (warehouse_id date : string) (w : watch) : outcome stock :=
  match stock_of_quantity (Kolichestvo w) with
  | Returns n => Returns (stock_entry (py_str (Kod w)) warehouse_id n date)
  | Raises e => Raises e
  | NoAnswer => NoAnswer
  end.

(** All the values returned, in order, or the first outcome that is not
    a return. *)
Fixpoint sequence (A : Type) (rs : seq (outcome A)) : outcome (seq A) :=
  match rs with
  | [::] => Returns [::]
  | Returns a :: rs' =>
    match sequence rs' with
    | Returns l => Returns (a :: l)
    | Raises e => Raises e
    | NoAnswer => NoAnswer
    end
  | Raises e :: _ => Raises e
  | NoAnswer :: _ => NoAnswer
  end.

(** The rows that match an offer id, told by counting: a row matches when
    fewer rows with its code came before it than the offer ids hold
    copies of that code.  [seen] are the codes of the rows before. *)
Fixpoint matching (seen : seq string) (watch_remnants : seq watch)
    (offer_ids : seq string) : seq watch :=
  match watch_remnants with
  | [::] => [::]
  | w :: rest =>
    let c := py_str (Kod w) in
    if count_mem c seen < count_mem c offer_ids
    then w :: matching (rcons seen c) rest offer_ids
    else matching (rcons seen c) rest offer_ids
  end.

(** What is left of [offer_ids] after removing, for each code in turn,
    its first occurrence if there is one. *)
Definition remove_each (cs : seq string) (offer_ids : seq string) : seq string :=
  foldl (fun l c => rem c l) offer_ids cs.

(** The rows that match, told with the working list as the source keeps
    it: a row matches when its code is in the list, and takes the first
    copy of it out. *)
Fixpoint matched_rows (watch_remnants : seq watch) (offer_ids : seq string) : seq watch :=
  match watch_remnants with
  | [::] => [::]
  | w :: rest =>
    if py_str (Kod w) \in offer_ids
    then w :: matched_rows rest (rem (py_str (Kod w)) offer_ids)
    else matched_rows rest offer_ids
  end.

Definition is_ok (A : Type) (o : outcome A) : bool :=
  if o is Returns _ then true else false.

(** The skus of a list of stock entries, in order. *)
Definition skus (stocks : seq stock) : seq string := [seq sku e | e <- stocks].

(** The count of the entry is an integer and is not negative. *)
Definition count_nonneg (e : stock) : bool :=
  if count_of e is Some n then (0 <=? n)%Z else false.

(** A quantity cell that cannot denote a negative number: a string
    without minus sign, or an integer that is not negative. *)
Definition quantity_nonneg (v : pyval) : bool :=
  match v with
  | PStr q => "-"%char \notin list_ascii_of_string q
  | PInt n => (0 <=? int_val n)%Z
  | PNone => true
  end.

(** The skus the call emits with count 0. *)
Definition zero_count_skus (stocks : seq stock) : seq string :=
  [seq sku e | e <- stocks & count_of e == Some 0%Z].

(** The request did not fail (or the event is a [print]). *)
Definition ok (ev : event) : bool :=
  if ev is Call _ (Some _) then false else true.

Definition is_price_update (ev : event) : bool :=
  if ev is Call (UpdatePrice _ _ _) _ then true else false.

(** The campaign a request is about. *)
Definition request_campaign (r : request) : option string :=
  match r with
  | DownloadStock => None
  | GetProductList _ campaign_id _ => Some campaign_id
  | UpdateStocks _ campaign_id _ => Some campaign_id
  | UpdatePrice _ campaign_id _ => Some campaign_id
  end.

Definition about_campaign (campaign_id : string) (ev : event) : bool :=
  if ev is Call r _ then request_campaign r == Some campaign_id else false.

(** Every event the computation adds to the log satisfies [P]. *)
Definition emits (P : pred event) (A : Type) (m : M A) : Prop :=
  forall log, exists2 new, (m log).2 = log ++ new & all P new.

(** The requests added went through, except that a computation which
    raises may have its last request failed, with the exception raised. *)
Definition ends_well (A : Type) (o : outcome A) (new : seq event) : Prop :=
  match o with
  | Raises e =>
    all ok new \/ exists new' r, new = rcons new' (Call r (Some e)) /\ all ok new'
  | _ => all ok new
  end.

Definition orderly (A : Type) (m : M A) : Prop :=
  forall log, exists2 new, (m log).2 = log ++ new & ends_well (m log).1 new.

(** The computation came to an end: it returned or raised. *)
Definition finished (A : Type) (o : outcome A) : bool :=
  if o is NoAnswer then false else true.

(** [m'] does what [m] does wherever [m] comes to an end. *)
Definition extends (A : Type) (m m' : M A) : Prop :=
  forall log, finished (m log).1 -> m' log = m log.

(** What [main_except] prints for an exception. *)
Definition report (error : exn) : event :=
  if isinstance_ReadTimeout error then Print None "Превышено время ожидания..."
  else if isinstance_ConnectionError error then Print (Some error) "Ошибка соединения"
  else Print (Some error) "ERROR_2".

(** A listing request of the campaign, with the token. *)
Definition listing_request (campaign_id market_token : string) (ev : event) : bool :=
  if ev is Call (GetProductList _ c t) _ then (c == campaign_id) && (t == market_token)
  else false.


(** One [update_stocks] request per batch, in order, all gone through. *)
Definition stock_requests (batches : seq (seq stock)) (campaign_id market_token : string)
  : seq event :=
  [seq Call (UpdateStocks b campaign_id market_token) None | b <- batches].

(** One [update_price] request per batch, in order, all gone through. *)
Definition price_requests (batches : seq (seq price)) (campaign_id market_token : string)
  : seq event :=
  [seq Call (UpdatePrice b campaign_id market_token) None | b <- batches].


(** The listing requests that went through, one per page token, in order. *)
Definition listing_requests (tokens : seq string) (campaign_id market_token : string)
  : seq event :=
  [seq Call (GetProductList page campaign_id market_token) None | page <- tokens].

(** The tokens sent to get [pages] when the first one is [page]: each
    next one is the token the page before carried. *)
Definition page_tokens (page : string) (pages : seq listing) : seq string :=
  belast page [seq nextPageToken p | p <- pages].

(** The page carries the token of a next page. *)
Definition more_pages (p : listing) : bool := nextPageToken p != "".

(** The world answers the listing requests with the tokens [tokens],
    sent in turn from [log] on, with the pages [pages]. *)
Fixpoint answered (W : world) (campaign_id market_token : string) (log : seq event)
    (tokens : seq string) (pages : seq listing) : Prop :=
  match tokens, pages with
  | [::], [::] => True
  | page :: tokens', p :: pages' =>
    get_answer W log page campaign_id market_token = Ok p /\
    answered W campaign_id market_token
      (rcons log (Call (GetProductList page campaign_id market_token) None)) tokens' pages'
  | _, _ => False
  end.

(** The shopSku of every entry of the pages, in order. *)
Definition page_skus (pages : seq listing) : seq string :=
  [seq shopSku product | product <- flatten [seq offerMappingEntries p | p <- pages]].

(** The entry is for the warehouse, and holds one item of type "FIT"
    dated [date]. *)
Definition entry_of_call (warehouse_id date : string) (e : stock) : bool :=
  (warehouseId e == warehouse_id) &&
  (if items e is [:: i] then (item_type i == "FIT") && (item_updatedAt i == date)
   else false).

(** The variables [main] reads from the environment, in the order of
    lines 297-301. *)
Definition main_variables : seq string :=
  [:: "MARKET_TOKEN"; "FBS_ID"; "DBS_ID"; "WAREHOUSE_FBS_ID"; "WAREHOUSE_DBS_ID"].

(** No [print] among the events. *)
Definition silent (new : seq event) : bool :=
  all (fun ev => if ev is Print _ _ then false else true) new.

(** ** A concrete world, for running the program *)

(** The sizes of the chunks of a sequence of [len] elements cut every
    [n] elements: [n] as often as it fits, then the rest if any. *)
Definition chunk_shape (len n : nat) : seq nat :=
  nseq (len %/ n) n ++ (if len %% n == 0 then [::] else [:: len %% n]).

(** Modelled from the spec: [divide] of the module [seller], which
    [market.py] imports; the Batcher cuts a sequence into chunks of [n]
    elements, the last one holding the rest.  (For [n = 0] the
    specification has the call fail; the program only calls it with 500
    and 2000.)  It serves to run the program on examples. *)
Definition divide_chunks (A : Type) (l : seq A) (n : nat) : seq (seq A) :=
  reshape (chunk_shape (size l) n) l.

Definition sample_inventory : seq watch :=
  [:: Watch (PStr "sku1") (PStr ">10") (PStr "1 500.00 rub.");
      Watch (PStr "sku2") (PStr "1") (PStr "2000")].

Definition sample_environ (name : string) : option string :=
  if name == "MARKET_TOKEN" then Some "token"
  else if name == "FBS_ID" then Some "fbs"
  else if name == "DBS_ID" then Some "dbs"
  else if name == "WAREHOUSE_FBS_ID" then Some "wh_fbs"
  else if name == "WAREHOUSE_DBS_ID" then Some "wh_dbs"
  else None.

(** Every request succeeds; each campaign lists the offers sku1 and sku3
    on a single page. *)
Definition calm_world : world :=
  World sample_environ
        (fun _ => Ok sample_inventory)
        (fun _ _ _ _ => Ok (Listing [:: Product "sku1"; Product "sku3"] ""))
        (fun _ _ _ _ => None)
        (fun _ _ _ _ => None)
        (fun _ => "2023-10-10T12:34:56Z").

(** The same, but the first listing request times out. *)
Definition timeout_world : world :=
  World sample_environ
        (fun _ => Ok sample_inventory)
        (fun log _ _ _ =>
           if size log == 1 then Raise ReadTimeout
           else Ok (Listing [:: Product "sku1"; Product "sku3"] ""))
        (fun _ _ _ _ => None)
        (fun _ _ _ _ => None)
        (fun _ => "2023-10-10T12:34:56Z").

(** Modelled from the spec: [price_conversion] of the module [seller],
    which [market.py] imports; the specification has it strip the
    decoration of a price text and keep an integer.  This instance keeps
    the digits that come before the first full stop; it serves to run
    [create_prices] on examples. *)
Definition price_conversion_digits (v : pyval) : result pyval :=
  match v with
  | PStr s =>
    let before_dot :=
      take (index "."%char (list_ascii_of_string s)) (list_ascii_of_string s) in
    Ok (PStr (string_of_list_ascii [seq c <- before_dot | is_digit c]))
  | _ => Raise AttributeError
  end.

(** The offers come on two pages: sku1 and sku2 on the first, which
    carries the token "p2", and sku3 on the second; any other token is
    refused. *)
Definition paged_world : world :=
  World sample_environ
        (fun _ => Ok sample_inventory)
        (fun _ page _ _ =>
           if page == "" then Ok (Listing [:: Product "sku1"; Product "sku2"] "p2")
           else if page == "p2" then Ok (Listing [:: Product "sku3"] "")
           else Raise HTTPError)
        (fun _ _ _ _ => None)
        (fun _ _ _ _ => None)
        (fun _ => "2023-10-10T12:34:56Z").

(** The first page carries the token "p2"; the request for the second
    page fails. *)
Definition torn_world : world :=
  World sample_environ
        (fun _ => Ok sample_inventory)
        (fun _ page _ _ =>
           if page == "" then Ok (Listing [:: Product "sku1"; Product "sku2"] "p2")
           else Raise ConnectionError)
        (fun _ _ _ _ => None)
        (fun _ _ _ _ => None)
        (fun _ => "2023-10-10T12:34:56Z").

(** Every page carries the token of a next page. *)
Definition endless_world : world :=
  World sample_environ
        (fun _ => Ok sample_inventory)
        (fun _ _ _ _ => Ok (Listing [:: Product "sku1"] "next"))
        (fun _ _ _ _ => None)
        (fun _ _ _ _ => None)
        (fun _ => "2023-10-10T12:34:56Z").

(** The calm world, but every update is refused. *)
Definition refusing_world : world :=
  World sample_environ
        (fun _ => Ok sample_inventory)
        (fun _ _ _ _ => Ok (Listing [:: Product "sku1"; Product "sku3"] ""))
        (fun _ _ _ _ => Some HTTPError)
        (fun _ _ _ _ => Some HTTPError)
        (fun _ => "2023-10-10T12:34:56Z").

(** The calm world, but the variable DBS_ID is not set. *)
Definition unset_world : world :=
  World (fun name => if name == "DBS_ID" then None else sample_environ name)
        (fun _ => Ok sample_inventory)
        (fun _ _ _ _ => Ok (Listing [:: Product "sku1"; Product "sku3"] ""))
        (fun _ _ _ _ => None)
        (fun _ _ _ _ => None)
        (fun _ => "2023-10-10T12:34:56Z").

(** The calm world, but the download of the inventory times out. *)
Definition offline_world : world :=
  World sample_environ
        (fun _ => Raise ReadTimeout)
        (fun _ _ _ _ => Ok (Listing [:: Product "sku1"; Product "sku3"] ""))
        (fun _ _ _ _ => None)
        (fun _ _ _ _ => None)
        (fun _ => "2023-10-10T12:34:56Z").

(** The calm world, but the quantity of the row sku1 is not a number. *)
Definition muddled_world : world :=
  World sample_environ
        (fun _ => Ok [:: Watch (PStr "sku1") (PStr "many") (PStr "1 500.00 rub.");
                         Watch (PStr "sku2") (PStr "1") (PStr "2000")])
        (fun _ _ _ _ => Ok (Listing [:: Product "sku1"; Product "sku3"] ""))
        (fun _ _ _ _ => None)
        (fun _ _ _ _ => None)
        (fun _ => "2023-10-10T12:34:56Z").

(** * Properties *)

(** ** Runs on examples *)

Example int_examples :
  [seq int_of_str s | s <- [:: "42"; " 42 "; "-5"; "+7"; "1_000"; "007"; "abc"; ""; "1__0"; "_1"; "1_"; "- 5"; "4 2"; ">10"]]
  = [:: Some 42; Some 42; Some (-5); Some 7; Some 1000; Some 7; None; None; None; None; None; None; None; None]%Z.
Proof. by []. Qed.

Example docstring_example :
  create_stocks [:: Watch (PStr "sku1") (PStr "15") PNone; Watch (PStr "sku2") (PStr "1") PNone]
                [:: "sku1"; "sku3"] "warehouse_123" "2023-10-10T12:34:56Z"
  = (Returns [:: stock_entry "sku1" "warehouse_123" 15 "2023-10-10T12:34:56Z";
            stock_entry "sku3" "warehouse_123" 0 "2023-10-10T12:34:56Z"], [:: "sku3"]).
Proof. by []. Qed.

(** Cells that hold integers: the quantity 1 is the string "1" for the
    test of line 200, the code 7 is the offer id "7". *)
Example integer_cells :
  create_stocks [:: Watch (PInt (SmallInt 7 isT)) (PInt (SmallInt 1 isT)) PNone;
                    Watch (PStr "sku2") (PInt (SmallInt 12 isT)) PNone]
                [:: "sku2"; "7"] "w1" "d"
  = (Returns [:: stock_entry "7" "w1" 0 "d"; stock_entry "sku2" "w1" 12 "d"], [::]).
Proof. by []. Qed.

(** ** The working list of [create_stocks] *)

Section RemoveEach.

Implicit Types (cs ids : seq string) (x c : string).

Lemma remove_each_cons c cs ids :
  remove_each (c :: cs) ids = remove_each cs (rem c ids).
Proof. by []. Qed.

Lemma remove_each_rcons cs c ids :
  remove_each (rcons cs c) ids = rem c (remove_each cs ids).
Proof. by rewrite /remove_each -cats1 foldl_cat. Qed.

Lemma count_mem_remove_each x cs ids :
  count_mem x (remove_each cs ids) = count_mem x ids - count_mem x cs.
Proof.
elim: cs ids => [|c cs IH] ids; first by rewrite /= subn0.
rewrite remove_each_cons IH count_mem_rem /= -subnDA.
by rewrite [c == x]eq_sym.
Qed.

Lemma mem_remove_each x cs ids :
  (x \in remove_each cs ids) = (count_mem x cs < count_mem x ids).
Proof.
rewrite -has_pred1 has_count count_mem_remove_each.
by rewrite subn_gt0.
Qed.

Lemma remove_each_subseq cs ids : subseq (remove_each cs ids) ids.
Proof.
elim: cs ids => [|c cs IH] ids //=.
exact: subseq_trans (IH _) (rem_subseq _ _).
Qed.

Lemma remove_each_uniq cs ids :
  uniq ids -> remove_each cs ids = [seq x <- ids | x \notin cs].
Proof.
elim: cs ids => [|c cs IH] ids Hu; first by rewrite /= filter_predT.
rewrite remove_each_cons IH ?rem_uniq // rem_filter // -filter_predI.
apply: eq_filter => x /=.
by rewrite in_cons negb_or andbC.
Qed.

End RemoveEach.

Section LoopSpec.

Variables (warehouse_id date : string).

Let entry := entry_result warehouse_id date.
Let loop := create_stocks_matched warehouse_id date.

(** The first loop, started on the working list left by the rows [seen]
    before: it appends the entries of the rows that match, in order, and
    raises at the first matching row whose quantity is refused. *)
Lemma create_stocks_matched_outcome inv seen ids0 acc :
  (loop inv (remove_each seen ids0) acc).1 =
  match sequence [seq entry w | w <- matching seen inv ids0] with
  | Returns es => Returns (acc ++ es)
  | Raises e => Raises e
  | NoAnswer => NoAnswer
  end.
Proof.
elim: inv seen acc => [|w rest IH] seen acc /=; first by rewrite cats0.
rewrite mem_remove_each.
case: ifP => Hc; last by rewrite -[remove_each seen ids0](@rem_id _ (py_str (Kod w)))
  ?mem_remove_each ?Hc // -remove_each_rcons IH.
rewrite /entry /entry_result /=.
case: (stock_of_quantity _) => [n|e|] //.
rewrite /list_remove mem_remove_each Hc -remove_each_rcons IH.
fold (entry_result warehouse_id date).
case: (sequence _) => [es|e|] //.
by rewrite -cats1 -catA.
Qed.

(** When the first loop ends normally, the working list has lost one
    copy of each code met, as far as it had one. *)
Lemma create_stocks_matched_left inv seen ids0 acc stocks ids :
  loop inv (remove_each seen ids0) acc = (Returns stocks, ids) ->
  ids = remove_each (seen ++ codes inv) ids0.
Proof.
elim: inv seen acc => [|w rest IH] seen acc /=; first by rewrite cats0 => -[].
rewrite mem_remove_each -cat_rcons.
case: ifP => Hc.
- case: (stock_of_quantity _) => [n|e|] //.
  rewrite /list_remove mem_remove_each Hc -remove_each_rcons.
  exact: IH.
- rewrite -[remove_each seen ids0](@rem_id _ (py_str (Kod w))) ?mem_remove_each ?Hc //.
  rewrite -remove_each_rcons.
  exact: IH.
Qed.

End LoopSpec.

Section Sequence.

Variable A : Type.

Lemma sequence_ok (rs : seq (outcome A)) (l : seq A) :
  sequence rs = Returns l -> rs = [seq Returns a | a <- l].
Proof.
elim: rs l => [|[a|e|] rs IH] l //=; first by case=> <-.
case E: (sequence rs) => [l'||] // [<-] /=.
by rewrite (IH _ E).
Qed.

Lemma sequence_map_ok (l : seq A) : sequence [seq Returns a | a <- l] = Returns l.
Proof. by elim: l => [|a l IH] //=; rewrite IH. Qed.

End Sequence.

Section Matching.

Implicit Types (inv : seq watch) (seen ids : seq string) (x : string).

(** How many matching rows carry the code [x]. *)
Lemma count_mem_matching x inv seen ids :
  count_mem x (codes (matching seen inv ids)) =
  minn (count_mem x (codes inv)) (count_mem x ids - count_mem x seen).
Proof.
elim: inv seen => [|w rest IH] seen /=; first by rewrite min0n.
have Hs : count_mem x (rcons seen (py_str (Kod w))) =
          (py_str (Kod w) == x) + count_mem x seen.
  by rewrite -cats1 count_cat /= addn0 addnC.
case: ifP => Hc /=; rewrite IH Hs.
- case: eqP => [E|_] /=; last by rewrite !add0n.
  rewrite E in Hc; rewrite !add1n subnS.
  by rewrite -minnSS prednK // subn_gt0.
- case: eqP => [E|_] /=; last by rewrite !add0n.
  rewrite E in Hc; rewrite add1n subnS.
  move/negbT: Hc; rewrite -leqNgt -subn_eq0 => /eqP ->.
  by rewrite !minn0.
Qed.

(** The matching rows are rows of the inventory, in its order. *)
Lemma matching_mask seen inv ids :
  exists m, size m = size inv /\ matching seen inv ids = mask m inv.
Proof.
elim: inv seen => [|w rest IH] seen /=; first by exists [::].
case: (IH (rcons seen (py_str (Kod w)))) => m [Hs Hm].
case: ifP => _; [exists (true :: m) | exists (false :: m)];
  by rewrite /= Hs Hm.
Qed.

(** With offer ids free of repetition, a row matches when its code is an
    offer id that no row before carried. *)
Lemma matching_uniq seen ids :
  uniq ids ->
  forall w, (count_mem (py_str (Kod w)) seen < count_mem (py_str (Kod w)) ids)
            = (py_str (Kod w) \in ids) && (py_str (Kod w) \notin seen).
Proof.
move=> Hu w; rewrite [count_mem _ ids]count_uniq_mem //.
case: (_ \in ids) => /=; last by [].
by rewrite ltnS leqn0 -[_ == 0]negbK -lt0n -has_count has_pred1.
Qed.

(** The codes taken by the matching rows and the ids left over make up
    the offer ids, copy for copy. *)
Lemma matching_left_perm inv ids :
  perm_eq (codes (matching [::] inv ids) ++ remove_each (codes inv) ids) ids.
Proof.
apply/allP => x _ /=; apply/eqP.
rewrite count_cat count_mem_matching count_mem_remove_each /= subn0.
by rewrite minnC minnE subnK // leq_subr.
Qed.

(** Both readings of "matching row" agree. *)
Lemma matched_rows_matching inv seen ids :
  matched_rows inv (remove_each seen ids) = matching seen inv ids.
Proof.
elim: inv seen => [|w rest IH] seen //=.
rewrite mem_remove_each; case: ifP => Hc.
- by rewrite -remove_each_rcons IH.
- by rewrite -IH remove_each_rcons rem_id // mem_remove_each Hc.
Qed.

Lemma matched_rowsE inv ids : matched_rows inv ids = matching [::] inv ids.
Proof. exact: (matched_rows_matching inv [::] ids). Qed.

End Matching.

(** ** The outcome of [create_stocks] *)

Section CreateStocksSpec.

Variables (warehouse_id date : string).
Implicit Types (inv : seq watch) (ids : seq string) (stocks : seq stock).

Let entry := entry_result warehouse_id date.
Let zero := fun x : string => stock_entry x warehouse_id 0 date.

(** A normal return: the entries of the matching rows, then a zero entry
    for each id left in the caller's list. *)
Lemma create_stocks_returns inv ids stocks ids' :
  create_stocks inv ids warehouse_id date = (Returns stocks, ids') ->
  exists es,
    [/\ [seq entry w | w <- matching [::] inv ids] = [seq Returns e | e <- es],
        stocks = es ++ [seq zero x | x <- ids']
      & ids' = remove_each (codes inv) ids].
Proof.
rewrite /create_stocks.
move: (create_stocks_matched_outcome warehouse_id date inv [::] ids [::]).
move: (@create_stocks_matched_left warehouse_id date inv [::] ids [::]).
rewrite /remove_each /=.
case: (create_stocks_matched _ _ _ _ _) => [[acc|e|] left] //= Hleft Hacc [<- <-].
move: Hacc; case E: (sequence _) => [es||] // [->].
exists es; split=> //; first exact: sequence_ok.
exact: Hleft.
Qed.

(** The call returns when the quantity of every matching row is accepted. *)
Lemma create_stocks_total inv ids es :
  [seq entry w | w <- matching [::] inv ids] = [seq Returns e | e <- es] ->
  create_stocks inv ids warehouse_id date =
  (Returns (es ++ [seq zero x | x <- remove_each (codes inv) ids]),
   remove_each (codes inv) ids).
Proof.
move=> Hes; rewrite /create_stocks.
move: (create_stocks_matched_outcome warehouse_id date inv [::] ids [::]).
move: (@create_stocks_matched_left warehouse_id date inv [::] ids [::]).
rewrite /remove_each /= -/entry Hes sequence_map_ok.
case: (create_stocks_matched _ _ _ _ _) => [[acc|e|] left] //= Hleft [->].
by rewrite (Hleft _ _ erefl).
Qed.

(** The call raises the exception of the first matching row whose
    quantity is refused. *)
Lemma create_stocks_outcome inv ids :
  (create_stocks inv ids warehouse_id date).1 =
  match sequence [seq entry w | w <- matching [::] inv ids] with
  | Returns es => Returns (es ++ [seq zero x | x <- remove_each (codes inv) ids])
  | Raises e => Raises e
  | NoAnswer => NoAnswer
  end.
Proof.
case E: (sequence _) => [es|e|].
- by rewrite (create_stocks_total (sequence_ok E)).
- rewrite /create_stocks.
  move: (create_stocks_matched_outcome warehouse_id date inv [::] ids [::]).
  rewrite /remove_each /= -/entry E.
  by case: (create_stocks_matched _ _ _ _ _) => [[acc|e'|] left] //= [->].
- rewrite /create_stocks.
  move: (create_stocks_matched_outcome warehouse_id date inv [::] ids [::]).
  rewrite /remove_each /= -/entry E.
  by case: (create_stocks_matched _ _ _ _ _) => [[acc|e'|] left].
Qed.

Lemma sequence_is_ok (A B : Type) (f : A -> outcome B) (l : seq A) :
  is_ok (sequence [seq f a | a <- l]) = all (fun a => is_ok (f a)) l.
Proof.
elim: l => [|a l IH] //=.
case: (f a) => [b|e|] //=.
by rewrite -IH; case: (sequence _).
Qed.

Lemma is_ok_entry w : is_ok (entry w) = is_ok (stock_of_quantity (Kolichestvo w)).
Proof. by rewrite /entry /entry_result; case: (stock_of_quantity _). Qed.

Lemma create_stocks_is_ok inv ids :
  is_ok (create_stocks inv ids warehouse_id date).1 =
  all (fun w => is_ok (stock_of_quantity (Kolichestvo w))) (matching [::] inv ids).
Proof.
rewrite create_stocks_outcome -(eq_all is_ok_entry) -sequence_is_ok.
by case: (sequence _).
Qed.

(** The entries of accepted rows carry the codes of these rows. *)
Lemma skus_entries (ms : seq watch) es :
  [seq entry w | w <- ms] = [seq Returns e | e <- es] -> skus es = codes ms.
Proof.
elim: ms es => [|w ms IH] [|e es] //=.
rewrite /entry /entry_result.
case: (stock_of_quantity _) => [n||] // [<- /IH ->].
by [].
Qed.

Lemma skus_zero ids : skus [seq zero x | x <- ids] = ids.
Proof. by rewrite /skus -map_comp map_id_in. Qed.

Lemma skus_create_stocks inv ids stocks ids' :
  create_stocks inv ids warehouse_id date = (Returns stocks, ids') ->
  skus stocks = codes (matching [::] inv ids) ++ remove_each (codes inv) ids.
Proof.
case/create_stocks_returns => es [Hes -> ->].
by rewrite /skus map_cat -/(skus es) (skus_entries Hes) -/(skus _) skus_zero.
Qed.

(** The skus returned are the offer ids, copy for copy. *)
Lemma skus_create_stocks_perm inv ids stocks ids' :
  create_stocks inv ids warehouse_id date = (Returns stocks, ids') ->
  perm_eq (skus stocks) ids.
Proof. by move/skus_create_stocks => ->; exact: matching_left_perm. Qed.

End CreateStocksSpec.

(** ** C1: the skus returned are the offer ids *)

(** C1.  For every inventory and every list of offer ids free of
    repetition: the skus of the returned list are the offer ids, each
    once: same multiset, no sku twice, none from outside.  And a list is
    returned exactly when the quantity of every matched row is taken by
    lines 197-203 (in the model, where [int] may give no answer). *)
Theorem create_stocks_skus_are_offer_ids
    (watch_remnants : seq watch) (offer_ids : seq string) (warehouse_id date : string) :
  uniq offer_ids ->
  is_ok (create_stocks watch_remnants offer_ids warehouse_id date).1 =
    all (fun w => is_ok (stock_of_quantity (Kolichestvo w)))
        (matched_rows watch_remnants offer_ids)
  /\ forall stocks,
       (create_stocks watch_remnants offer_ids warehouse_id date).1 = Returns stocks ->
       [/\ perm_eq (skus stocks) offer_ids,
           uniq (skus stocks)
         & forall x, count_mem x (skus stocks) = (x \in offer_ids)].
Proof.
move=> Hu; split; first by rewrite matched_rowsE; exact: create_stocks_is_ok.
move=> stocks.
case E: (create_stocks _ _ _ _) => [r ids'] /= Hr; rewrite Hr in E.
have Hp := skus_create_stocks_perm E.
split=> //; first by rewrite (perm_uniq Hp).
by move=> x; rewrite (permP Hp) count_uniq_mem.
Qed.

Lemma create_stocks_skus_are_offer_ids_witness :
  let watch_remnants :=
    [:: Watch (PStr "sku1") (PStr ">10") (PStr "1 500.00");
        Watch (PStr "sku2") (PStr "1") (PStr "2000")] in
  let offer_ids := [:: "sku1"; "sku3"] in
  uniq offer_ids /\
  forall stocks,
    (create_stocks watch_remnants offer_ids "w1" "2023-10-10T12:34:56Z").1 = Returns stocks ->
    [/\ perm_eq (skus stocks) offer_ids,
        uniq (skus stocks)
      & forall x, count_mem x (skus stocks) = (x \in offer_ids)].
Proof.
split; first reflexivity.
apply (@create_stocks_skus_are_offer_ids _ [:: "sku1"; "sku3"] "w1" "2023-10-10T12:34:56Z").
reflexivity.
Defined.

(** ** [int] reads decimal numerals *)

Section Decimal.

Local Arguments Z.mul : simpl never.
Local Arguments Z.add : simpl never.
Local Arguments Pos.mul : simpl never.
Local Arguments Pos.add : simpl never.

Lemma digits_after_uint_acc (l : Decimal.uint) (acc : positive) :
  digits_after (Z.pos acc) (list_ascii_of_string (NilEmpty.string_of_uint l))
  = Some (Z.pos (Pos.of_uint_acc l acc)).
Proof.
elim: l acc => [|l IH|l IH|l IH|l IH|l IH|l IH|l IH|l IH|l IH|l IH] acc //=;
  rewrite -IH; congr (digits_after _ _); rewrite /Z.of_nat /=; lia.
Qed.

Lemma digits_after_uint (l : Decimal.uint) :
  digits_after 0 (list_ascii_of_string (NilEmpty.string_of_uint l)) = Some (Z.of_N (Pos.of_uint l)).
Proof.
elim: l => [|l IH|l IH|l IH|l IH|l IH|l IH|l IH|l IH|l IH|l IH] //=;
  by rewrite -digits_after_uint_acc; congr (digits_after _ _).
Qed.

Lemma digits_uint (d : Decimal.uint) :
  d <> Decimal.Nil ->
  digits (list_ascii_of_string (NilEmpty.string_of_uint d)) = Some (Z.of_uint d).
Proof.
rewrite /Z.of_uint.
case: d => [|l|l|l|l|l|l|l|l|l|l] // _ /=;
  first exact: digits_after_uint;
  by rewrite -digits_after_uint_acc; congr (digits_after _ _).
Qed.

End Decimal.

Section RoundTrip.

Lemma digit_not_space c : is_digit c -> ~~ is_space c.
Proof. by case: c => -[] [] [] [] [] [] [] []. Qed.

Lemma digit_not_sign c : is_digit c -> (c != "-"%char) && (c != "+"%char).
Proof. by case: c => -[] [] [] [] [] [] [] []. Qed.

Lemma all_digit_uint (l : Decimal.uint) : all is_digit (list_ascii_of_string (NilEmpty.string_of_uint l)).
Proof. by elim: l. Qed.

Lemma lstrip_id s : all (fun c => ~~ is_space c) s -> lstrip s = s.
Proof. by case: s => [|c r] //= /andP [/negbTE ->]. Qed.

Lemma strip_id s : all (fun c => ~~ is_space c) s -> strip s = s.
Proof.
by move=> H; rewrite /strip lstrip_id // lstrip_id ?revK // all_rev.
Qed.

Lemma int_of_str_uint (d : Decimal.uint) :
  d <> Decimal.Nil ->
  int_of_str (NilEmpty.string_of_uint d) = Some (Z.of_uint d)
  /\ int_of_str (String "-" (NilEmpty.string_of_uint d)) = Some (- Z.of_uint d)%Z.
Proof.
move=> Hd; have Hdig := all_digit_uint d.
have Hsp : all (fun c => ~~ is_space c) (list_ascii_of_string (NilEmpty.string_of_uint d)).
  by apply: sub_all Hdig => c; exact: digit_not_space.
rewrite /int_of_str /= !strip_id //= digits_uint //; split=> //.
case E: (list_ascii_of_string _) Hdig (digits_uint Hd) => [|c r] //= /andP [Hc _].
by case/andP: (digit_not_sign Hc) => /negbTE -> /negbTE ->.
Qed.

Lemma string_of_uint_nonnil (d : Decimal.uint) :
  d <> Decimal.Nil -> NilZero.string_of_uint d = NilEmpty.string_of_uint d.
Proof. by case: d. Qed.

(** The reading of [int] is the decimal one: it gives back every
    integer from its decimal writing, the one that [str] makes. *)
Lemma int_of_str_decimal (n : Z) :
  int_of_str (NilZero.string_of_int (Z.to_int n)) = Some n.
Proof.
case: n => [|p|p] //=; have Hd := DecimalPos.Unsigned.to_uint_nonnil p;
  rewrite string_of_uint_nonnil //.
- by rewrite (proj1 (int_of_str_uint Hd)) /Z.of_uint DecimalPos.Unsigned.of_to.
- by rewrite (proj2 (int_of_str_uint Hd)) /Z.of_uint DecimalPos.Unsigned.of_to.
Qed.

End RoundTrip.

(** ** C2: the quantity policy *)

Section LoopSteps.

Variables (warehouse_id date : string).
Let loop := create_stocks_matched warehouse_id date.

(** The first loop over a concatenation: run it on the first part, go on
    with the second part from the state reached, unless it raised. *)
Lemma create_stocks_matched_cat pre rest ids acc :
  loop (pre ++ rest) ids acc =
  match loop pre ids acc with
  | (Returns acc', ids') => loop rest ids' acc'
  | (Raises e, ids') => (Raises e, ids')
  | (NoAnswer, ids') => (NoAnswer, ids')
  end.
Proof.
elim: pre ids acc => [|w pre IH] ids acc //=.
case: ifP => _ //.
case: (stock_of_quantity _) => [n|e|] //.
by case: (list_remove _ _) => [ids'|e|].
Qed.

(** A row whose code is not in the working list is passed over. *)
Lemma create_stocks_matched_skip w rest ids acc :
  py_str (Kod w) \notin ids -> loop (w :: rest) ids acc = loop rest ids acc.
Proof. by move=> /negbTE /= ->. Qed.

(** A row whose code is in the working list: its quantity decides. *)
Lemma create_stocks_matched_step w rest ids acc :
  py_str (Kod w) \in ids ->
  loop (w :: rest) ids acc =
  match stock_of_quantity (Kolichestvo w) with
  | Returns n => loop rest (rem (py_str (Kod w)) ids)
                 (rcons acc (stock_entry (py_str (Kod w)) warehouse_id n date))
  | Raises e => (Raises e, ids)
  | NoAnswer => (NoAnswer, ids)
  end.
Proof. by move=> Hc; rewrite /= /list_remove Hc. Qed.

End LoopSteps.

(** C2.  A row with quantity string [q] that the first loop reaches with
    its code in the working list ([pre] went through, leaving [stocks]
    and [ids]): for ">10" the entry appended has count 100, for "1" it
    has count 0, for any other string it has the integer [int(q)], read
    in base 10; and when [int(q)] fails the whole call raises
    [ValueError] (the specification's InvalidQuantity), no list being
    returned.  The last two cases are stated for the text on which [int]
    is modelled. *)
Theorem create_stocks_quantity_policy
    (pre post : seq watch) (w : watch) (q : string)
    (offer_ids : seq string) (warehouse_id date : string)
    (stocks : seq stock) (ids : seq string) :
  Kolichestvo w = PStr q ->
  create_stocks_matched warehouse_id date pre offer_ids [::] = (Returns stocks, ids) ->
  py_str (Kod w) \in ids ->
  let goes_on_with n :=
    create_stocks_matched warehouse_id date (pre ++ w :: post) offer_ids [::] =
    create_stocks_matched warehouse_id date post (rem (py_str (Kod w)) ids)
      (rcons stocks (stock_entry (py_str (Kod w)) warehouse_id n date)) in
  [/\ q = ">10" -> goes_on_with 100%Z,
      q = "1" -> goes_on_with 0%Z,
      forall n, q <> ">10" -> q <> "1" -> plain q -> int_of_str q = Some n ->
                goes_on_with n
    & q <> ">10" -> q <> "1" -> plain q -> int_of_str q = None ->
      create_stocks (pre ++ w :: post) offer_ids warehouse_id date = (Raises ValueError, ids)].
Proof.
move=> Hq Hpre Hc /=.
have Hcat := create_stocks_matched_cat warehouse_id date pre (w :: post) offer_ids [::].
rewrite Hpre in Hcat.
split.
- move=> Eq; rewrite Hcat /= Hc.
  by rewrite /stock_of_quantity /list_remove Hq Eq Hc.
- move=> Eq; rewrite Hcat /= Hc.
  by rewrite /stock_of_quantity /list_remove Hq Eq Hc.
- move=> n /eqP/negbTE N10 /eqP/negbTE N1 Hp Hn; rewrite Hcat /= Hc.
  by rewrite /stock_of_quantity /list_remove Hq /= N10 N1 Hp Hn Hc.
- move=> /eqP/negbTE N10 /eqP/negbTE N1 Hp Hn.
  rewrite /create_stocks Hcat /= Hc.
  by rewrite /stock_of_quantity Hq /= N10 N1 Hp Hn.
Qed.

Lemma create_stocks_quantity_policy_witness :
  let w := Watch (PStr "sku1") (PStr "42") PNone in
  let goes_on_with n :=
    create_stocks_matched "w1" "d" ([::] ++ w :: [::]) [:: "sku1"; "sku3"] [::] =
    create_stocks_matched "w1" "d" [::] (rem "sku1" [:: "sku1"; "sku3"])
      (rcons [::] (stock_entry "sku1" "w1" n "d")) in
  [/\ "42" = ">10" -> goes_on_with 100%Z,
      "42" = "1" -> goes_on_with 0%Z,
      forall n, "42" <> ">10" -> "42" <> "1" -> plain "42" -> int_of_str "42" = Some n ->
                goes_on_with n
    & "42" <> ">10" -> "42" <> "1" -> plain "42" -> int_of_str "42" = None ->
      create_stocks ([::] ++ w :: [::]) [:: "sku1"; "sku3"] "w1" "d"
      = (Raises ValueError, [:: "sku1"; "sku3"])].
Proof.
apply (@create_stocks_quantity_policy [::] [::] (Watch (PStr "sku1") (PStr "42") PNone)
         "42" [:: "sku1"; "sku3"] "w1" "d" [::] [:: "sku1"; "sku3"]);
  reflexivity.
Defined.

(** The four cases of the quantity policy on the specification's samples. *)
Example quantity_samples :
  [seq stock_of_quantity (PStr q) | q <- [:: ">10"; "1"; "42"; "abc"]]
  = [:: Returns 100%Z; Returns 0%Z; Returns 42%Z; Raises ValueError].
Proof. by []. Qed.

(** ** C5: matched rows first, then the ids left *)

(** C5.  The list returned is, first, one entry per matching row, in the
    order of the inventory, with the count taken from the row's quantity;
    then one entry with count 0 for each offer id left in the working
    list, that is for each copy of an id that no row took. *)
Theorem create_stocks_matched_then_missing
    (watch_remnants : seq watch) (offer_ids : seq string) (warehouse_id date : string)
    (stocks : seq stock) (left : seq string) :
  create_stocks watch_remnants offer_ids warehouse_id date = (Returns stocks, left) ->
  exists es,
    [/\ stocks = es ++ [seq stock_entry x warehouse_id 0 date | x <- left],
        [seq Returns e | e <- es] =
          [seq entry_result warehouse_id date w | w <- matched_rows watch_remnants offer_ids],
        exists m, size m = size watch_remnants /\
                  matched_rows watch_remnants offer_ids = mask m watch_remnants,
        subseq left offer_ids
      & forall x, count_mem x left =
                  count_mem x offer_ids - count_mem x (codes watch_remnants)].
Proof.
case/create_stocks_returns => es [Hes -> ->].
exists es; split=> //.
- by rewrite matched_rowsE.
- by rewrite matched_rowsE; exact: matching_mask.
- exact: remove_each_subseq.
- by move=> x; rewrite count_mem_remove_each.
Qed.

Lemma create_stocks_matched_then_missing_witness :
  let watch_remnants :=
    [:: Watch (PStr "sku1") (PStr ">10") (PStr "1 500.00");
        Watch (PStr "sku2") (PStr "1") (PStr "2000")] in
  exists es,
    [/\ [:: stock_entry "sku1" "w1" 100 "d"; stock_entry "sku3" "w1" 0 "d"]
          = es ++ [seq stock_entry x "w1" 0 "d" | x <- [:: "sku3"]],
        [seq Returns e | e <- es] =
          [seq entry_result "w1" "d" w | w <- matched_rows watch_remnants [:: "sku1"; "sku3"]],
        exists m, size m = size watch_remnants /\
                  matched_rows watch_remnants [:: "sku1"; "sku3"] = mask m watch_remnants,
        subseq [:: "sku3"] [:: "sku1"; "sku3"]
      & forall x, count_mem x [:: "sku3"] =
                  count_mem x [:: "sku1"; "sku3"] - count_mem x (codes watch_remnants)].
Proof.
apply (@create_stocks_matched_then_missing
         [:: Watch (PStr "sku1") (PStr ">10") (PStr "1 500.00");
             Watch (PStr "sku2") (PStr "1") (PStr "2000")]
         [:: "sku1"; "sku3"] "w1" "d").
reflexivity.
Defined.

(** ** C6: a code repeated in the inventory *)

Section Duplicates.

Variables (warehouse_id date : string).
Let loop := create_stocks_matched warehouse_id date.

(** The list built by the first loop only grows. *)
Lemma create_stocks_matched_grows inv ids acc acc' ids' :
  loop inv ids acc = (Returns acc', ids') -> exists es, acc' = acc ++ es.
Proof.
move=> E.
move: (create_stocks_matched_outcome warehouse_id date inv [::] ids acc).
rewrite /remove_each /= -/loop E /=.
by case: (sequence _) => [es||] // [->]; exists es.
Qed.

(** With offer ids free of repetition, a code met before is no longer in
    the working list. *)
Lemma seen_code_removed pre ids acc acc' ids' c :
  uniq ids -> c \in codes pre ->
  loop pre ids acc = (Returns acc', ids') -> c \notin ids'.
Proof.
move=> Hu Hc E.
rewrite (create_stocks_matched_left (seen := [::]) E) /= mem_remove_each -leqNgt.
rewrite count_uniq_mem //.
apply: leq_trans (leq_b1 _) _.
by rewrite -has_count has_pred1.
Qed.

(** A row whose code an earlier row carried changes nothing. *)
Lemma create_stocks_duplicate_row pre w post ids :
  uniq ids -> py_str (Kod w) \in codes pre ->
  create_stocks (pre ++ w :: post) ids warehouse_id date =
  create_stocks (pre ++ post) ids warehouse_id date.
Proof.
move=> Hu Hc; rewrite /create_stocks !create_stocks_matched_cat.
case E: (create_stocks_matched _ _ pre ids [::]) => [[acc|e|] ids'] //.
by rewrite create_stocks_matched_skip // (seen_code_removed Hu Hc E).
Qed.

End Duplicates.

(** C6.  Offer ids free of repetition; [w1] is the first row with the
    code [c], an offer id, and [w] a later row with the same code.  The
    call does exactly what it does on the inventory without [w]: no
    entry for [w], no exception from [w] whatever its quantity.  When
    the call returns, one entry has sku [c], and its count is the one of
    [w1]. *)
Theorem create_stocks_first_occurrence_only
    (p1 p2 post : seq watch) (w1 w : watch) (c : string)
    (offer_ids : seq string) (warehouse_id date : string) :
  uniq offer_ids ->
  c \in offer_ids ->
  py_str (Kod w1) = c -> py_str (Kod w) = c ->
  c \notin codes p1 ->
  let inv := p1 ++ w1 :: p2 ++ w :: post in
  create_stocks inv offer_ids warehouse_id date =
    create_stocks (p1 ++ w1 :: p2 ++ post) offer_ids warehouse_id date
  /\ forall stocks left,
       create_stocks inv offer_ids warehouse_id date = (Returns stocks, left) ->
       exists n s1 s2,
         [/\ stock_of_quantity (Kolichestvo w1) = Returns n,
             stocks = s1 ++ stock_entry c warehouse_id n date :: s2,
             c \notin skus s1 & c \notin skus s2].
Proof.
move=> Hu Hc E1 E Hp1 /=; split.
  have -> : p1 ++ w1 :: p2 ++ post = (p1 ++ w1 :: p2) ++ post by rewrite -catA.
  have -> : p1 ++ w1 :: p2 ++ w :: post = (p1 ++ w1 :: p2) ++ w :: post by rewrite -catA.
  apply: create_stocks_duplicate_row => //.
  by rewrite /codes map_cat mem_cat /= in_cons E E1 eqxx orbT.
move=> stocks left Hret.
have Huniq : uniq (skus stocks) by rewrite (perm_uniq (skus_create_stocks_perm Hret)).
move: Hret; rewrite /create_stocks create_stocks_matched_cat.
case Ep1: (create_stocks_matched _ _ p1 offer_ids [::]) => [[acc1|e|] ids1] //.
have Hin : py_str (Kod w1) \in ids1.
  rewrite (create_stocks_matched_left (seen := [::]) Ep1) /= mem_remove_each E1.
  by rewrite (count_memPn Hp1) -has_count has_pred1.
rewrite create_stocks_matched_step //.
case En: (stock_of_quantity _) => [n||] //.
case Erest: (create_stocks_matched _ _ _ _ _) => [[acc|e|] ids'] // [Hs _].
case: (create_stocks_matched_grows Erest) => es Hacc.
exists n, acc1, (es ++ [seq stock_entry x warehouse_id 0 date | x <- ids']).
move: Huniq; rewrite -Hs /create_stocks_missing Hacc E1 -cats1 -!catA /=.
rewrite /skus map_cat cat_uniq /= => /and3P [_ /norP [H1 _] /andP [H2 _]].
by split.
Qed.

Lemma create_stocks_first_occurrence_only_witness :
  let w1 := Watch (PStr "sku1") (PStr "7") PNone in
  let w := Watch (PStr "sku1") (PStr "abc") PNone in
  let inv := [::] ++ w1 :: [::] ++ w :: [::] in
  create_stocks inv [:: "sku1"; "sku3"] "w1" "d" =
    create_stocks ([::] ++ w1 :: [::] ++ [::]) [:: "sku1"; "sku3"] "w1" "d"
  /\ forall stocks left,
       create_stocks inv [:: "sku1"; "sku3"] "w1" "d" = (Returns stocks, left) ->
       exists n s1 s2,
         [/\ stock_of_quantity (Kolichestvo w1) = Returns n,
             stocks = s1 ++ stock_entry "sku1" "w1" n "d" :: s2,
             "sku1" \notin skus s1 & "sku1" \notin skus s2].
Proof.
apply (@create_stocks_first_occurrence_only [::] [::] [::]
         (Watch (PStr "sku1") (PStr "7") PNone) (Watch (PStr "sku1") (PStr "abc") PNone)
         "sku1" [:: "sku1"; "sku3"] "w1" "d"); reflexivity.
Defined.

Example duplicate_row_example :
  create_stocks [:: Watch (PStr "sku1") (PStr "7") PNone; Watch (PStr "sku1") (PStr "abc") PNone]
                [:: "sku1"; "sku3"] "w1" "d"
  = (Returns [:: stock_entry "sku1" "w1" 7 "d"; stock_entry "sku3" "w1" 0 "d"], [:: "sku3"]).
Proof. by []. Qed.

(** ** C8: the sign of the counts *)

Section Signs.

Local Arguments Z.mul : simpl never.
Local Arguments Z.add : simpl never.

Lemma digit_of_nonneg c d : digit_of c = Some d -> (0 <= d)%Z.
Proof. rewrite /digit_of; case: ifP => // _ [<-]; exact: Nat2Z.is_nonneg. Qed.

Lemma digits_after_nonneg acc s n :
  (0 <= acc)%Z -> digits_after acc s = Some n -> (0 <= n)%Z.
Proof.
elim: s acc => [|c r IH] acc Hacc /=; first by case=> <-.
case: ifP => _.
  by case: r IH => [|d r'] // IH; case: ifP => // _; exact: IH.
case E: (digit_of c) => [d|] //; apply: IH.
have := digit_of_nonneg E; lia.
Qed.

Lemma digits_nonneg s n : digits s = Some n -> (0 <= n)%Z.
Proof.
case: s => [|c r] //=; case E: (digit_of c) => [d|] //.
exact: digits_after_nonneg (digit_of_nonneg E).
Qed.

Lemma mem_lstrip s : {subset lstrip s <= s}.
Proof.
elim: s => [|c r IH] //= x; case: ifP => // _ /IH.
by rewrite in_cons => ->; rewrite orbT.
Qed.

Lemma mem_strip s : {subset strip s <= s}.
Proof.
move=> x; rewrite /strip mem_rev => /mem_lstrip.
by rewrite mem_rev => /mem_lstrip.
Qed.

(** Without a minus sign [int] gives no negative number. *)
Lemma int_of_str_nonneg q n :
  "-"%char \notin list_ascii_of_string q -> int_of_str q = Some n -> (0 <= n)%Z.
Proof.
rewrite /int_of_str => Hm.
case E: (strip _) => [|c r] //.
have Hc : c \in list_ascii_of_string q by apply: mem_strip; rewrite E in_cons eqxx.
case: eqP => [Ec|_]; first by rewrite Ec in Hc; rewrite Hc in Hm.
by case: ifP => _; exact: digits_nonneg.
Qed.

Lemma stock_of_quantity_nonneg v n :
  quantity_nonneg v -> stock_of_quantity v = Returns n -> (0 <= n)%Z.
Proof.
rewrite /stock_of_quantity.
case: ifP => _; first by move=> _ [<-].
case: ifP => _; first by move=> _ [<-].
case: v => [|q|m] //=.
- move=> Hm; case: ifP => // _; case E: (int_of_str q) => [k|] // [<-].
  exact: int_of_str_nonneg E.
- by move=> /Z.leb_le H [<-].
Qed.

Lemma entries_nonneg warehouse_id date (ms : seq watch) es :
  [seq entry_result warehouse_id date w | w <- ms] = [seq Returns e | e <- es] ->
  all2 (fun w e => quantity_nonneg (Kolichestvo w) ==> count_nonneg e) ms es.
Proof.
elim: ms es => [|w ms IH] [|e es] //=.
rewrite /entry_result.
case E: (stock_of_quantity _) => [n||] // [<- /IH ->]; rewrite andbT.
apply/implyP => Hq; rewrite /count_nonneg /=.
by apply/Z.leb_le; exact: stock_of_quantity_nonneg E.
Qed.

End Signs.

(** C8, as the code has it.  Each matching row whose quantity is accepted
    yields an entry with an integer count, and the count is not negative
    when the quantity string holds no minus sign; the entries of the
    second loop have count 0.  (A string such as "-5" is accepted and
    gives the count -5.) *)
Theorem create_stocks_count_sign
    (watch_remnants : seq watch) (offer_ids : seq string) (warehouse_id date : string)
    (stocks : seq stock) (left : seq string) :
  create_stocks watch_remnants offer_ids warehouse_id date = (Returns stocks, left) ->
  exists es zs,
    [/\ stocks = es ++ zs,
        all2 (fun w e => quantity_nonneg (Kolichestvo w) ==> count_nonneg e)
             (matched_rows watch_remnants offer_ids) es
      & all (fun e => count_of e == Some 0%Z) zs].
Proof.
case/create_stocks_returns => es [Hes -> _].
exists es, [seq stock_entry x warehouse_id 0 date | x <- left]; split=> //.
- by rewrite matched_rowsE; exact: entries_nonneg Hes.
- by rewrite all_map; apply/allP.
Qed.

Lemma create_stocks_count_sign_witness :
  exists es zs,
    [/\ [:: stock_entry "sku1" "w1" 15 "d"; stock_entry "sku3" "w1" 0 "d"] = es ++ zs,
        all2 (fun w e => quantity_nonneg (Kolichestvo w) ==> count_nonneg e)
             (matched_rows [:: Watch (PStr "sku1") (PStr "15") PNone] [:: "sku1"; "sku3"]) es
      & all (fun e => count_of e == Some 0%Z) zs].
Proof.
apply (@create_stocks_count_sign [:: Watch (PStr "sku1") (PStr "15") PNone]
         [:: "sku1"; "sku3"] "w1" "d" _ [:: "sku3"]).
reflexivity.
Defined.

(** C8 as stated fails: the quantity "-5" of a matching row is accepted
    and the entry returned has the count -5. *)
Lemma create_stocks_negative_count :
  create_stocks [:: Watch (PStr "sku1") (PStr "-5") PNone] [:: "sku1"] "w1" "d"
    = (Returns [:: stock_entry "sku1" "w1" (-5) "d"], [::])
  /\ count_of (stock_entry "sku1" "w1" (-5) "d") = Some (-5)%Z
  /\ ~ (0 <= -5)%Z.
Proof. by split; [|split]. Qed.

(** ** C10: what the call leaves of the caller's list *)

(** C10 as stated fails: a matching row with quantity "1" is emitted with
    count 0, and its id is removed from the caller's list all the same. *)
Lemma create_stocks_zero_count_removed :
  create_stocks [:: Watch (PStr "sku1") (PStr "1") PNone] [:: "sku1"; "sku3"] "w1" "d"
    = (Returns [:: stock_entry "sku1" "w1" 0 "d"; stock_entry "sku3" "w1" 0 "d"], [:: "sku3"])
  /\ zero_count_skus [:: stock_entry "sku1" "w1" 0 "d"; stock_entry "sku3" "w1" 0 "d"]
     = [:: "sku1"; "sku3"]
  /\ "sku1" \notin [:: "sku3"].
Proof. by []. Qed.

(** C10, as the code has it.  After a normal return the caller's list is
    what [remove_each] leaves: every matching row took out the first copy
    of its code.  The list is, in order, the skus of the entries the
    second loop appends; it keeps the order of the offer ids and, of
    each id, the copies no row took.  When the offer ids are free of
    repetition it holds exactly the ids that no row carries, and no id
    of a matching row. *)
Theorem create_stocks_consumes_offer_ids
    (watch_remnants : seq watch) (offer_ids : seq string) (warehouse_id date : string)
    (stocks : seq stock) (left : seq string) :
  create_stocks watch_remnants offer_ids warehouse_id date = (Returns stocks, left) ->
  [/\ left = remove_each (codes watch_remnants) offer_ids,
      exists es, stocks = es ++ [seq stock_entry x warehouse_id 0 date | x <- left]
                 /\ skus es = codes (matched_rows watch_remnants offer_ids),
      subseq left offer_ids,
      forall x, count_mem x left =
                count_mem x offer_ids - count_mem x (codes watch_remnants)
    & uniq offer_ids ->
      left = [seq x <- offer_ids | x \notin codes watch_remnants]
      /\ forall x, x \in codes (matched_rows watch_remnants offer_ids) -> x \notin left].
Proof.
case/create_stocks_returns => es [Hes -> ->]; split=> //.
- by exists es; split=> //; rewrite matched_rowsE; exact: skus_entries Hes.
- exact: remove_each_subseq.
- by move=> x; rewrite count_mem_remove_each.
- move=> Hu; split; first exact: remove_each_uniq.
  move=> x; rewrite matched_rowsE remove_each_uniq // mem_filter.
  rewrite -!has_pred1 !has_count count_mem_matching leq_min => /andP [-> _].
  by [].
Qed.

Lemma create_stocks_consumes_offer_ids_witness :
  let inv := [:: Watch (PStr "sku1") (PStr "1") PNone] in
  let left := [:: "sku3"] in
  [/\ left = remove_each (codes inv) [:: "sku1"; "sku3"],
      exists es, [:: stock_entry "sku1" "w1" 0 "d"; stock_entry "sku3" "w1" 0 "d"]
                 = es ++ [seq stock_entry x "w1" 0 "d" | x <- left]
                 /\ skus es = codes (matched_rows inv [:: "sku1"; "sku3"]),
      subseq left [:: "sku1"; "sku3"],
      forall x, count_mem x left =
                count_mem x [:: "sku1"; "sku3"] - count_mem x (codes inv)
    & uniq [:: "sku1"; "sku3"] ->
      left = [seq x <- [:: "sku1"; "sku3"] | x \notin codes inv]
      /\ forall x, x \in codes (matched_rows inv [:: "sku1"; "sku3"]) -> x \notin left].
Proof.
apply (@create_stocks_consumes_offer_ids [:: Watch (PStr "sku1") (PStr "1") PNone]
         [:: "sku1"; "sku3"] "w1" "d").
reflexivity.
Defined.

(** ** The outcome of [create_prices] *)

Section CreatePricesSpec.

Variable price_conversion : pyval -> result pyval.

Lemma create_prices_loop_outcome inv ids acc :
  create_prices_loop price_conversion inv ids acc =
  match sequence [seq price_result price_conversion w | w <- inv & py_str (Kod w) \in ids] with
  | Returns ps => Returns (acc ++ ps)
  | Raises e => Raises e
  | NoAnswer => NoAnswer
  end.
Proof.
elim: inv acc => [|w rest IH] acc /=; first by rewrite cats0.
case: ifP => _ //=; rewrite /price_result.
case: (price_of _ w) => [n|e|] //; rewrite IH.
by case: (sequence _) => [ps|e|] //; rewrite -cats1 -catA.
Qed.

Lemma create_prices_outcome inv ids :
  create_prices price_conversion inv ids =
  sequence [seq price_result price_conversion w | w <- inv & py_str (Kod w) \in ids].
Proof. by rewrite /create_prices create_prices_loop_outcome; case: (sequence _). Qed.

Lemma price_results_ok (ms : seq watch) ps :
  [seq price_result price_conversion w | w <- ms] = [seq Returns p | p <- ps] ->
  [seq price_id p | p <- ps] = codes ms
  /\ all (fun p => currencyId (price_price p) == "RUR") ps.
Proof.
elim: ms ps => [|w ms IH] [|p ps] //=.
rewrite /price_result; case: (price_of _ w) => [n||] // [<- /IH [-> ->]].
by [].
Qed.

End CreatePricesSpec.

(** ** C7: one price entry per known row *)

(** C7.  Whatever [price_conversion] is: the list returned holds one
    entry per row whose code is an offer id, in the order of the
    inventory, with the row's code as id, the integer price as value and
    "RUR" as currency; no entry has an id outside the offer ids.  And a
    list is returned exactly when the price of every such row converts
    to an integer (in the model, where [int] may give no answer). *)
Theorem create_prices_one_entry_per_known_row
    (price_conversion : pyval -> result pyval)
    (watch_remnants : seq watch) (offer_ids : seq string) :
  let known := [seq w <- watch_remnants | py_str (Kod w) \in offer_ids] in
  is_ok (create_prices price_conversion watch_remnants offer_ids)
    = all (fun w => is_ok (price_of price_conversion w)) known
  /\ forall prices,
       create_prices price_conversion watch_remnants offer_ids = Returns prices ->
       [/\ [seq Returns p | p <- prices] = [seq price_result price_conversion w | w <- known],
           [seq price_id p | p <- prices] = codes known,
           all (fun p => currencyId (price_price p) == "RUR") prices
         & all (fun p => price_id p \in offer_ids) prices].
Proof.
move=> known; split.
  rewrite create_prices_outcome sequence_is_ok; apply: eq_all => w.
  by rewrite /price_result; case: (price_of _ w).
move=> prices; rewrite create_prices_outcome => /sequence_ok Hps.
case: (price_results_ok Hps) => Hid Hcur; split=> //.
rewrite -(all_map price_id (fun c => c \in offer_ids)) Hid /codes all_map.
exact: filter_all.
Qed.

Lemma create_prices_one_entry_per_known_row_witness :
  let inv := [:: Watch (PStr "sku1") (PStr ">10") (PStr "1 500.00 rub.");
                 Watch (PStr "sku2") (PStr "1") (PStr "2000")] in
  let known := [seq w <- inv | py_str (Kod w) \in [:: "sku1"; "sku3"]] in
  let prices := [:: Price "sku1" (PriceValue 1500 "RUR")] in
  [/\ [seq Returns p | p <- prices] = [seq price_result price_conversion_digits w | w <- known],
      [seq price_id p | p <- prices] = codes known,
      all (fun p => currencyId (price_price p) == "RUR") prices
    & all (fun p => price_id p \in [:: "sku1"; "sku3"]) prices].
Proof.
apply (proj2 (@create_prices_one_entry_per_known_row price_conversion_digits
         [:: Watch (PStr "sku1") (PStr ">10") (PStr "1 500.00 rub.");
             Watch (PStr "sku2") (PStr "1") (PStr "2000")] [:: "sku1"; "sku3"])).
reflexivity.
Defined.

(** ** What a run adds to the log *)

Section Emits.

Variable P : pred event.

Lemma emits_ret A (a : A) : emits P (ret a).
Proof. by move=> log; exists [::]; rewrite ?cats0. Qed.

Lemma emits_raise A e : emits P (@raise A e).
Proof. by move=> log; exists [::]; rewrite ?cats0. Qed.

Lemma emits_lift A (o : outcome A) : emits P (lift o).
Proof. by move=> log; exists [::]; rewrite ?cats0. Qed.

Lemma emits_bind A B (m : M A) (k : A -> M B) :
  emits P m -> (forall a, emits P (k a)) -> emits P (bind m k).
Proof.
move=> Hm Hk log; rewrite /bind.
case: (Hm log) => n1; case: (m log) => [[a|e|] l1] /= -> H1; try by exists n1.
case: (Hk a (log ++ n1)) => n2 -> H2.
by exists (n1 ++ n2); rewrite ?catA // all_cat H1.
Qed.

Lemma emits_try A (m : M A) (h : exn -> M A) :
  emits P m -> (forall e, emits P (h e)) -> emits P (try_except m h).
Proof.
move=> Hm Hh log; rewrite /try_except.
case: (Hm log) => n1; case: (m log) => [[a|e|] l1] /= -> H1; try by exists n1.
case: (Hh e (log ++ n1)) => n2 -> H2.
by exists (n1 ++ n2); rewrite ?catA // all_cat H1.
Qed.

Lemma emits_for A (l : seq A) (body : A -> M unit) :
  (forall a, emits P (body a)) -> emits P (for_ l body).
Proof.
move=> Hb; elim: l => [|a l IH] /=; first exact: emits_ret.
by apply: emits_bind => // _.
Qed.

Lemma emits_one A (o : outcome A) (ev : event) :
  P ev -> emits P (fun log => (o, rcons log ev)).
Proof. by move=> Hev log; exists [:: ev]; rewrite /= ?cats1 // Hev. Qed.

End Emits.

Section ProgramEmits.

Variable divide : forall A : Type, seq A -> nat -> seq (seq A).
Variable price_conversion : pyval -> result pyval.
Variable W : world.
Variable P : pred event.

Lemma emits_print error text : P (Print error text) -> emits P (print error text).
Proof. exact: emits_one. Qed.

Lemma emits_env_str name : emits P (env_str W name).
Proof.
by rewrite /env_str; case: (environ W name) => [v|];
  [exact: emits_ret | exact: emits_raise].
Qed.

Lemma emits_download_stock :
  (forall f, P (Call DownloadStock f)) -> emits P (download_stock W).
Proof.
move=> HP log; rewrite /download_stock.
by case: (download_stock_answer W log) => [l|e];
  [exists [:: Call DownloadStock None] | exists [:: Call DownloadStock (Some e)]];
  rewrite /= ?cats1 // HP.
Qed.

Lemma emits_get_product_list page c t :
  (forall f, P (Call (GetProductList page c t) f)) ->
  emits P (get_product_list W page c t).
Proof.
move=> HP log; rewrite /get_product_list.
by case: (get_answer W log page c t) => [l|e] /=;
  [exists [:: Call (GetProductList page c t) None]
  | exists [:: Call (GetProductList page c t) (Some e)]];
  rewrite /= ?cats1 // HP.
Qed.

Lemma emits_update_stocks stocks c t :
  (forall f, P (Call (UpdateStocks stocks c t) f)) ->
  emits P (update_stocks W stocks c t).
Proof.
move=> HP log; rewrite /update_stocks.
by case: (put_answer W log stocks c t) => [e|] /=;
  [exists [:: Call (UpdateStocks stocks c t) (Some e)]
  | exists [:: Call (UpdateStocks stocks c t) None]];
  rewrite /= ?cats1 // HP.
Qed.

Lemma emits_update_price prices c t :
  (forall f, P (Call (UpdatePrice prices c t) f)) ->
  emits P (update_price W prices c t).
Proof.
move=> HP log; rewrite /update_price.
by case: (post_answer W log prices c t) => [e|] /=;
  [exists [:: Call (UpdatePrice prices c t) (Some e)]
  | exists [:: Call (UpdatePrice prices c t) None]];
  rewrite /= ?cats1 // HP.
Qed.

Lemma emits_get_offer_ids fuel c t :
  (forall page f, P (Call (GetProductList page c t) f)) ->
  emits P (get_offer_ids W fuel c t).
Proof.
move=> HP; apply: emits_bind => [|l]; last exact: emits_ret.
elim: fuel "" [::] => [|fuel IH] page acc /=.
  by move=> log; exists [::]; rewrite ?cats0.
apply: emits_bind => [|some_prod]; first exact: emits_get_product_list.
by case: ifP => _; [exact: emits_ret | exact: IH].
Qed.

Lemma emits_create_stocks_now inv ids wh : emits P (create_stocks_now W inv ids wh).
Proof.
move=> log; rewrite /create_stocks_now.
by case: (create_stocks _ _ _ _).1 => [a|e|]; exists [::]; rewrite ?cats0.
Qed.

End ProgramEmits.

(** ** The bound on the listing loop

    The bound [fuel] only cuts runs short: a run that comes to an end
    with some bound is the run with any larger bound. *)

Section Fuel.

Lemma extends_refl A (m : M A) : extends m m.
Proof. by []. Qed.

Lemma extends_bind A B (m m' : M A) (k k' : A -> M B) :
  extends m m' -> (forall a, extends (k a) (k' a)) ->
  extends (bind m k) (bind m' k').
Proof.
move=> Hm Hk log; rewrite /bind.
case E: (m log) (Hm log) => [[a|e|] l1] //= H; rewrite H //.
exact: Hk.
Qed.

Lemma extends_try A (m m' : M A) (h : exn -> M A) :
  extends m m' -> extends (try_except m h) (try_except m' h).
Proof.
move=> Hm log; rewrite /try_except.
by case E: (m log) (Hm log) => [[a|e|] l1] //= H; rewrite H.
Qed.

Variable divide : forall A : Type, seq A -> nat -> seq (seq A).
Variable price_conversion : pyval -> result pyval.
Variable W : world.

Lemma get_offer_ids_pages_fuel fuel fuel' page acc c t :
  fuel <= fuel' ->
  extends (get_offer_ids_pages W fuel page acc c t)
          (get_offer_ids_pages W fuel' page acc c t).
Proof.
elim: fuel fuel' page acc => [|fuel IH] [|fuel'] page acc //= Hle.
apply: extends_bind => [|some_prod]; first exact: extends_refl.
by case: ifP => _; [exact: extends_refl | exact: IH].
Qed.

Lemma get_offer_ids_fuel fuel fuel' c t :
  fuel <= fuel' -> extends (get_offer_ids W fuel c t) (get_offer_ids W fuel' c t).
Proof.
move=> Hle; apply: extends_bind => [|l]; last exact: extends_refl.
exact: get_offer_ids_pages_fuel.
Qed.

Lemma main_fuel fuel fuel' :
  fuel <= fuel' ->
  extends (main divide price_conversion W fuel) (main divide price_conversion W fuel').
Proof.
move=> Hle.
do 6![apply: extends_bind => [|?]; first exact: extends_refl].
apply: extends_try.
apply: extends_bind => [|ids1]; first exact: get_offer_ids_fuel.
do 2![apply: extends_bind => [|?]; first exact: extends_refl].
apply: extends_bind => [|ids2]; first exact: get_offer_ids_fuel.
do 2![apply: extends_bind => [|?]; first exact: extends_refl].
exact: extends_refl.
Qed.

(** A listing that ends on its first page needs one round. *)
Lemma get_offer_ids_one_page fuel c t log products :
  get_answer W log "" c t = Ok (Listing products "") ->
  get_offer_ids W fuel.+1 c t log
  = (Returns [seq shopSku p | p <- products],
     rcons log (Call (GetProductList "" c t) None)).
Proof. by move=> H; rewrite /get_offer_ids /bind /= /bind /get_product_list H. Qed.

End Fuel.

(** ** C3: [main] and the price updates *)

(** C3 asks that a run of [main] sends every price batch.  The code does
    not: [upload_prices] is an [async def], [main] calls it without
    awaiting the coroutine it makes, and the body never runs.  Whatever
    the world answers and however long the listings are, a run of [main]
    adds no [update_price] request to the log. *)
Theorem main_sends_no_price_update
    (divide : forall A : Type, seq A -> nat -> seq (seq A))
    (price_conversion : pyval -> result pyval) (W : world) (fuel : nat)
    (log : seq event) :
  exists2 new,
    (main divide price_conversion W fuel log).2 = log ++ new
    & all (fun ev => ~~ is_price_update ev) new.
Proof.
apply: emits_bind => [|market_token]; first exact: emits_env_str.
apply: emits_bind => [|campaign_fbs_id]; first exact: emits_env_str.
apply: emits_bind => [|campaign_dbs_id]; first exact: emits_env_str.
apply: emits_bind => [|warehouse_fbs_id]; first exact: emits_env_str.
apply: emits_bind => [|warehouse_dbs_id]; first exact: emits_env_str.
apply: emits_bind => [|watch_remnants]; first exact: emits_download_stock.
apply: emits_try; last first.
  by move=> e; rewrite /main_except; case: ifP => _; [|case: ifP => _];
     exact: emits_print.
apply: emits_bind => [|ids1]; first exact: emits_get_offer_ids.
apply: emits_bind => [|stocks1]; first exact: emits_create_stocks_now.
apply: emits_bind => [|_]; first by apply: emits_for => b; exact: emits_update_stocks.
apply: emits_bind => [|ids2]; first exact: emits_get_offer_ids.
apply: emits_bind => [|stocks2]; first exact: emits_create_stocks_now.
apply: emits_bind => [|_]; first by apply: emits_for => b; exact: emits_update_stocks.
exact: emits_ret.
Qed.

(** In the calm world a price is there to be sent: awaiting the
    coroutine sends it, the run of [main] does not. *)
Example price_update_when_awaited :
  (await (upload_prices divide_chunks price_conversion_digits calm_world 5
            sample_inventory "fbs" "token") [::])
  = (Returns [:: Price "sku1" (PriceValue 1500 "RUR")],
     [:: Call (GetProductList "" "fbs" "token") None;
         Call (UpdatePrice [:: Price "sku1" (PriceValue 1500 "RUR")] "fbs" "token") None]).
Proof. by []. Qed.

Example main_in_calm_world :
  main divide_chunks price_conversion_digits calm_world 5 [::]
  = (Returns tt,
     [:: Call DownloadStock None;
         Call (GetProductList "" "fbs" "token") None;
         Call (UpdateStocks
                 [:: stock_entry "sku1" "wh_fbs" 100 "2023-10-10T12:34:56Z";
                     stock_entry "sku3" "wh_fbs" 0 "2023-10-10T12:34:56Z"]
                 "fbs" "token") None;
         Call (GetProductList "" "dbs" "token") None;
         Call (UpdateStocks
                 [:: stock_entry "sku1" "wh_dbs" 100 "2023-10-10T12:34:56Z";
                     stock_entry "sku3" "wh_dbs" 0 "2023-10-10T12:34:56Z"]
                 "dbs" "token") None]).
Proof. by []. Qed.

(** ** Where a failed request leaves a run *)

Lemma cat_inj_l (T : Type) (s a b : seq T) : s ++ a = s ++ b -> a = b.
Proof. by elim: s => [|x s IH] //= [] /IH. Qed.

Section Orderly.

Lemma orderly_ret A (a : A) : orderly (ret a).
Proof. by move=> log; exists [::]; rewrite ?cats0. Qed.

Lemma orderly_raise A e : orderly (@raise A e).
Proof. by move=> log; exists [::]; rewrite ?cats0 //=; left. Qed.

Lemma orderly_lift A (o : outcome A) : orderly (lift o).
Proof. by move=> log; exists [::]; rewrite ?cats0 //=; case: o => //=; left. Qed.

Lemma orderly_bind A B (m : M A) (k : A -> M B) :
  orderly m -> (forall a, orderly (k a)) -> orderly (bind m k).
Proof.
move=> Hm Hk log; rewrite /bind.
case: (Hm log) => n1; case: (m log) => [[a|e|] l1] /= -> H1; try by exists n1.
case: (Hk a (log ++ n1)) => n2 -> H2.
exists (n1 ++ n2); rewrite ?catA //.
case: (k a _).1 H2 => [b|e|] /=; rewrite ?all_cat ?H1 //.
case=> [->|[n' [r [-> Hn']]]]; [by left | right].
by exists (n1 ++ n'), r; rewrite rcons_cat all_cat H1.
Qed.

Lemma orderly_for A (l : seq A) (body : A -> M unit) :
  (forall a, orderly (body a)) -> orderly (for_ l body).
Proof.
move=> Hb; elim: l => [|a l IH] /=; first exact: orderly_ret.
by apply: orderly_bind => // _.
Qed.

Variable W : world.

Lemma orderly_get_product_list page c t : orderly (get_product_list W page c t).
Proof.
move=> log; rewrite /get_product_list.
case: (get_answer W log page c t) => [l|e] /=.
  by exists [:: Call (GetProductList page c t) None]; rewrite ?cats1.
exists [:: Call (GetProductList page c t) (Some e)]; rewrite ?cats1 //.
by right; exists [::], (GetProductList page c t).
Qed.

Lemma orderly_update_stocks stocks c t : orderly (update_stocks W stocks c t).
Proof.
move=> log; rewrite /update_stocks.
case: (put_answer W log stocks c t) => [e|] /=; last first.
  by exists [:: Call (UpdateStocks stocks c t) None]; rewrite ?cats1.
exists [:: Call (UpdateStocks stocks c t) (Some e)]; rewrite ?cats1 //.
by right; exists [::], (UpdateStocks stocks c t).
Qed.

Lemma orderly_update_price prices c t : orderly (update_price W prices c t).
Proof.
move=> log; rewrite /update_price.
case: (post_answer W log prices c t) => [e|] /=; last first.
  by exists [:: Call (UpdatePrice prices c t) None]; rewrite ?cats1.
exists [:: Call (UpdatePrice prices c t) (Some e)]; rewrite ?cats1 //.
by right; exists [::], (UpdatePrice prices c t).
Qed.

Lemma orderly_get_offer_ids fuel c t : orderly (get_offer_ids W fuel c t).
Proof.
apply: orderly_bind => [|l]; last exact: orderly_ret.
elim: fuel "" [::] => [|fuel IH] page acc /=.
  by move=> log; exists [::]; rewrite ?cats0.
apply: orderly_bind => [|some_prod]; first exact: orderly_get_product_list.
by case: ifP => _; [exact: orderly_ret | exact: IH].
Qed.

Lemma orderly_create_stocks_now inv ids wh : orderly (create_stocks_now W inv ids wh).
Proof.
move=> log; rewrite /create_stocks_now.
by case: (create_stocks _ _ _ _).1 => [a|e|]; exists [::]; rewrite ?cats0 //=; left.
Qed.

End Orderly.

(** Only one place in a list holds a failed request when all the others
    went through. *)
Lemma split_at_failure (pre post new' tail : seq event) (x y : event) :
  all ok new' -> all ok tail -> ~~ ok x ->
  pre ++ x :: post = new' ++ y :: tail ->
  [/\ pre = new', x = y & post = tail].
Proof.
move=> Hn Ht Hx; elim: new' pre Hn => [|a n IH] [|p pre] /=.
- by move=> _ [-> ->].
- move=> _ [_ E]; move: Ht; rewrite -E all_cat /= => /and3P [_ Hx' _].
  by rewrite Hx' in Hx.
- by case/andP => Ha _ [E _]; rewrite E Ha in Hx.
- case/andP => _ Hn [-> /(IH _ Hn) [-> -> ->]].
  by [].
Qed.

(** ** The runs of [main] *)

Section MainRuns.

Variable divide : forall A : Type, seq A -> nat -> seq (seq A).
Variable price_conversion : pyval -> result pyval.
Variable W : world.

Lemma main_tryE fuel inv t fbs dbs wf wd log :
  main_try divide price_conversion W fuel inv t fbs dbs wf wd log =
  (let* _ := sync_stocks divide W fuel inv fbs t wf in sync_stocks divide W fuel inv dbs t wd) log.
Proof.
rewrite /main_try /sync_stocks /bind.
case: (get_offer_ids W fuel fbs t log) => [[ids1|e|] l1] //.
case: (create_stocks_now W inv ids1 wf l1) => [[s1|e|] l2] //.
case: (for_ _ _ l2) => [[[]|e|] l3] //.
case: (get_offer_ids W fuel dbs t l3) => [[ids2|e|] l4] //.
case: (create_stocks_now W inv ids2 wd l4) => [[s2|e|] l5] //.
by case: (for_ _ _ l5) => [[[]|e|] l6].
Qed.

Lemma main_exceptE e log : main_except e log = (Returns tt, rcons log (report e)).
Proof. by rewrite /main_except /report; case: ifP => _ //; case: ifP. Qed.

(** One campaign: only requests about that campaign, the failed one
    last. *)
Lemma sync_stocks_run fuel inv c t wh log :
  exists new,
    [/\ (sync_stocks divide W fuel inv c t wh log).2 = log ++ new,
        all (about_campaign c) new
      & ends_well (sync_stocks divide W fuel inv c t wh log).1 new].
Proof.
have He : emits (about_campaign c) (sync_stocks divide W fuel inv c t wh).
  apply: emits_bind => [|ids].
    by apply: emits_get_offer_ids => page f /=.
  apply: emits_bind => [|stocks]; first exact: emits_create_stocks_now.
  by apply: emits_for => b; apply: emits_update_stocks => f /=.
have Ho : orderly (sync_stocks divide W fuel inv c t wh).
  apply: orderly_bind => [|ids]; first exact: orderly_get_offer_ids.
  apply: orderly_bind => [|stocks]; first exact: orderly_create_stocks_now.
  by apply: orderly_for => b; exact: orderly_update_stocks.
case: (He log) => n1 E1 H1; case: (Ho log) => n2 E2 H2.
have E : n1 = n2 by apply: (@cat_inj_l _ log); rewrite -E1 -E2.
by exists n1; split=> //; rewrite E.
Qed.

(** The [try] block: once a request of the first campaign has failed,
    nothing is sent for the second. *)
Lemma main_try_run fuel inv t fbs dbs wf wd log :
  let r := main_try divide price_conversion W fuel inv t fbs dbs wf wd log in
  exists new,
    [/\ r.2 = log ++ new, ends_well r.1 new
      & all (about_campaign fbs) new
        \/ all (fun ev => ok ev || about_campaign dbs ev) new].
Proof.
rewrite /= main_tryE /bind.
case: (sync_stocks_run fuel inv fbs t wf log) => n1 [].
case: (sync_stocks _ _ _ _ fbs _ _ _) => [[[]|e|] l1] /= -> A1 E1;
  try by exists n1; split=> //; left.
case: (sync_stocks_run fuel inv dbs t wd (log ++ n1)) => n2 [-> A2 E2].
exists (n1 ++ n2); split; first by rewrite catA.
- case: (sync_stocks _ _ _ _ dbs _ _ _).1 E2 => [b|e|] /=; rewrite ?all_cat ?E1 //.
  case=> [->|[n' [r [-> Hn']]]]; [by left | right].
  by exists (n1 ++ n'), r; rewrite rcons_cat all_cat E1.
- right; rewrite all_cat; apply/andP; split.
    by apply: sub_all E1 => ev ->.
  by apply: sub_all A2 => ev ->; rewrite orbT.
Qed.

(** The three ways a run of [main] can go. *)
Lemma main_run fuel fbs dbs log :
  environ W "FBS_ID" = Some fbs -> environ W "DBS_ID" = Some dbs ->
  let r := main divide price_conversion W fuel log in
  exists new,
    r.2 = log ++ new /\
    [\/ all ok new,
        exists e, new = [:: Call DownloadStock (Some e)]
      | exists pre rq e,
          [/\ new = pre ++ [:: Call rq (Some e); report e],
              all ok pre,
              r.1 = Returns tt
            & request_campaign rq = Some fbs -> fbs != dbs ->
              all (fun ev => ~~ about_campaign dbs ev) new]].
Proof.
move=> Hfbs Hdbs; rewrite /= /main /bind /env_str Hfbs Hdbs.
case: (environ W "MARKET_TOKEN") => [t|] /=; last first.
  by exists [::]; rewrite cats0; split=> //; constructor 1.
case: (environ W "WAREHOUSE_FBS_ID") => [wf|] /=; last first.
  by exists [::]; rewrite cats0; split=> //; constructor 1.
case: (environ W "WAREHOUSE_DBS_ID") => [wd|] /=; last first.
  by exists [::]; rewrite cats0; split=> //; constructor 1.
rewrite /download_stock.
case: (download_stock_answer W log) => [inv|e] /=; last first.
  by exists [:: Call DownloadStock (Some e)]; rewrite cats1; split=> //;
     constructor 2; exists e.
rewrite /try_except.
case: (main_try_run fuel inv t fbs dbs wf wd (rcons log (Call DownloadStock None))).
move=> n [].
case: (main_try _ _ _ _ _ _ _ _ _ _ _) => [[[]|e|] l1] /= -> Hend Hc.
- by exists (Call DownloadStock None :: n); rewrite -cats1 -catA; split=> //;
     constructor 1.
- rewrite main_exceptE /=.
  exists (Call DownloadStock None :: rcons n (report e)).
  rewrite -[rcons (_ ++ n) _]cats1 -[rcons log _]cats1 -!catA cats1; split=> //.
  case: Hend => [Hok|[n' [rq [En Hok]]]].
    constructor 1; rewrite /= all_rcons Hok andbT /report.
    by case: ifP => _ //; case: ifP.
  constructor 3; exists (Call DownloadStock None :: n'), rq, e.
  split=> //; first by rewrite En /= -!cats1 -catA.
  move=> Hrq Hne /=; rewrite all_rcons.
  have -> /= : ~~ about_campaign dbs (report e).
    by rewrite /report; case: ifP => _ //; case: ifP.
  case: Hc => Hc.
    apply: sub_all Hc => -[rq' f|err txt] //= /eqP ->.
    by apply: contra Hne => /eqP [->].
  move: Hc; rewrite En all_rcons /= Hrq => /andP [/eqP [E] _].
  by rewrite E eqxx in Hne.
- by exists (Call DownloadStock None :: n); rewrite -cats1 -catA; split=> //;
     constructor 1.
Qed.

End MainRuns.

(** ** C4: a failed request ends the run *)

(** C4 as stated fails: when the first listing of the FBS campaign times
    out, the run prints the message and ends; no request about the DBS
    campaign is sent, whereas the calm world gets them. *)
Lemma main_timeout_skips_dbs :
  main divide_chunks price_conversion_digits timeout_world 5 [::]
    = (Returns tt,
       [:: Call DownloadStock None;
           Call (GetProductList "" "fbs" "token") (Some ReadTimeout);
           Print None "Превышено время ожидания..."])
  /\ ~~ has (about_campaign "dbs")
          (main divide_chunks price_conversion_digits timeout_world 5 [::]).2
  /\ has (about_campaign "dbs")
         (main divide_chunks price_conversion_digits calm_world 5 [::]).2.
Proof. by []. Qed.

(** C4, as the code has it.  When a request about a campaign fails
    during a run of [main], the exception is caught and printed and
    [main] returns; the failed request is the last one of the run, no
    request before it had failed, and nothing follows but the message.
    So a failure in the FBS campaign, the first, leaves the DBS campaign
    without any request. *)
Theorem main_failure_ends_the_run
    (divide : forall A : Type, seq A -> nat -> seq (seq A))
    (price_conversion : pyval -> result pyval) (W : world) (fuel : nat)
    (fbs dbs : string) (log pre post : seq event) (rq : request) (e : exn) :
  environ W "FBS_ID" = Some fbs ->
  environ W "DBS_ID" = Some dbs ->
  (main divide price_conversion W fuel log).2 = log ++ pre ++ Call rq (Some e) :: post ->
  request_campaign rq != None ->
  [/\ (main divide price_conversion W fuel log).1 = Returns tt,
      post = [:: report e],
      all ok pre
    & request_campaign rq = Some fbs -> fbs != dbs ->
      all (fun ev => ~~ about_campaign dbs ev) (pre ++ Call rq (Some e) :: post)].
Proof.
move=> Hfbs Hdbs Hlog Hrq.
case: (main_run divide price_conversion fuel log Hfbs Hdbs) => new [].
rewrite Hlog => /cat_inj_l <- {new}.
case=> [Hok|[e' E]|[pre' [rq' [e' [E Hpre Hret Hc]]]]].
- by move: Hok; rewrite all_cat /= andbF.
- have [] := @split_at_failure pre post [::] [::] _ (Call DownloadStock (Some e'))
               isT isT (isT : ~~ ok (Call rq (Some e))) E.
  by move=> _ [Erq _] _; rewrite Erq in Hrq.
- have [] := @split_at_failure pre post pre' [:: report e'] _ (Call rq' (Some e'))
               Hpre _ (isT : ~~ ok (Call rq (Some e))) E.
    by rewrite /= andbT /report; case: ifP => _ //; case: ifP.
  move=> Ep [Erq Ee] Epost; split=> //.
  + by rewrite Epost Ee.
  + by rewrite Ep.
  + by move: Hc; rewrite Erq.
Qed.

Lemma main_failure_ends_the_run_witness :
  let run := main divide_chunks price_conversion_digits timeout_world 5 [::] in
  let pre := [:: Call DownloadStock None] in
  let rq := GetProductList "" "fbs" "token" in
  let post := [:: Print None "Превышено время ожидания..."] in
  [/\ run.1 = Returns tt,
      post = [:: report ReadTimeout],
      all ok pre
    & request_campaign rq = Some "fbs" -> "fbs" != "dbs" ->
      all (fun ev => ~~ about_campaign "dbs" ev) (pre ++ Call rq (Some ReadTimeout) :: post)].
Proof.
apply (@main_failure_ends_the_run divide_chunks price_conversion_digits timeout_world 5
         "fbs" "dbs" [::] [:: Call DownloadStock None]
         [:: Print None "Превышено время ожидания..."]
         (GetProductList "" "fbs" "token") ReadTimeout); reflexivity.
Defined.

(** ** Runs that return *)

Lemma bind_returns A B (m : M A) (k : A -> M B) log b log' :
  bind m k log = (Returns b, log') ->
  exists a l1, m log = (Returns a, l1) /\ k a l1 = (Returns b, log').
Proof.
by rewrite /bind; case: (m log) => [[a|e|] l1] // H; exists a, l1.
Qed.

Section Returning.

Variable W : world.

Lemma update_stocks_each_returns (bs : seq (seq stock)) c t log u log' :
  for_ bs (fun b => update_stocks W b c t) log = (Returns u, log') ->
  log' = log ++ [seq Call (UpdateStocks b c t) None | b <- bs].
Proof.
elim: bs log => [|b bs IH] log /=; first by case=> _ <-; rewrite cats0.
move=> H; case: (bind_returns H) => {H} -[] [l1 []]; rewrite /update_stocks.
case: (put_answer W log b c t) => [e|] // [<-] /IH ->.
by rewrite -cats1 -catA.
Qed.

Lemma update_price_each_returns (bs : seq (seq price)) c t log u log' :
  for_ bs (fun b => update_price W b c t) log = (Returns u, log') ->
  log' = log ++ [seq Call (UpdatePrice b c t) None | b <- bs].
Proof.
elim: bs log => [|b bs IH] log /=; first by case=> _ <-; rewrite cats0.
move=> H; case: (bind_returns H) => {H} -[] [l1 []]; rewrite /update_price.
case: (post_answer W log b c t) => [e|] // [<-] /IH ->.
by rewrite -cats1 -catA.
Qed.


Lemma create_stocks_now_returns inv ids wh log stocks log' :
  create_stocks_now W inv ids wh log = (Returns stocks, log') ->
  log' = log /\ (create_stocks inv ids wh (utcnow W log)).1 = Returns stocks.
Proof.
rewrite /create_stocks_now.
by case: (create_stocks _ _ _ _).1 => [s|e|] //= [-> ->].
Qed.

End Returning.

(** ** C9: uploads go in bounded chunks *)

Section Batches.

Variable divide : forall A : Type, seq A -> nat -> seq (seq A).

(** What is taken from the Batcher's contract: the chunks put together
    give the list back, and no chunk is longer than asked. *)
Hypothesis divide_flatten :
  forall (A : Type) (l : seq A) (n : nat), 0 < n -> flatten (divide l n) = l.
Hypothesis divide_size :
  forall (A : Type) (l : seq A) (n : nat),
    0 < n -> all (fun chunk => size chunk <= n) (divide l n).

Variable price_conversion : pyval -> result pyval.
Variable W : world.




End Batches.

(** The chunks of [divide_chunks] meet the contract taken above. *)
Lemma sumn_chunk_shape len n : sumn (chunk_shape len n) = len.
Proof.
rewrite /chunk_shape sumn_cat sumn_nseq mulnC.
case: eqP => [E|_] /=; last by rewrite addn0 -divn_eq.
by rewrite addn0 {2}(divn_eq len n) E addn0.
Qed.

Lemma divide_chunks_flatten (A : Type) (l : seq A) (n : nat) :
  0 < n -> flatten (divide_chunks l n) = l.
Proof.
by move=> _; rewrite /divide_chunks reshapeKr ?sumn_chunk_shape ?take_size.
Qed.


Example divide_chunks_example :
  divide_chunks [:: 1; 2; 3; 4; 5] 2 = [:: [:: 1; 2]; [:: 3; 4]; [:: 5]].
Proof. by []. Qed.


(** ** More on [create_stocks] *)

Section CreateStocksMore.

Variables (warehouse_id date : string).
Implicit Types (inv : seq watch) (ids : seq string) (stocks : seq stock).

Let loop := create_stocks_matched warehouse_id date.

(** Every entry made from a row is an entry of the call. *)
Lemma entries_of_call (ms : seq watch) es :
  [seq entry_result warehouse_id date w | w <- ms] = [seq Returns e | e <- es] ->
  all (entry_of_call warehouse_id date) es.
Proof.
elim: ms es => [|w ms IH] [|e es] //=.
rewrite /entry_result; case: (stock_of_quantity _) => [n||] // [<- /IH ->].
by rewrite /entry_of_call /= !eqxx.
Qed.

(** The rows whose code is not among the offer ids play no part in the
    first loop. *)
Lemma create_stocks_matched_filter ids0 inv ids acc :
  {subset ids <= ids0} ->
  loop inv ids acc = loop [seq w <- inv | py_str (Kod w) \in ids0] ids acc.
Proof.
elim: inv ids acc => [|w rest IH] ids acc Hsub //=.
case: ifP => Hc.
  rewrite (Hsub _ Hc) /= Hc.
  case: (stock_of_quantity _) => [n|e|] //.
  rewrite /list_remove Hc; apply: IH => x Hx.
  exact: Hsub (mem_rem Hx).
case: ifP => H0 /=; last exact: IH.
by rewrite Hc; exact: IH.
Qed.

Lemma create_stocks_filter inv ids :
  create_stocks inv ids warehouse_id date =
  create_stocks [seq w <- inv | py_str (Kod w) \in ids] ids warehouse_id date.
Proof.
rewrite /create_stocks.
by move: (@create_stocks_matched_filter ids inv ids [::] (fun x H => H)); rewrite /loop => <-.
Qed.

(** Where the first loop raises: at a row whose code is in the working
    list, the rows before having gone through. *)
Lemma create_stocks_matched_raises inv ids acc e ids' :
  loop inv ids acc = (Raises e, ids') ->
  exists pre w post acc',
    [/\ inv = pre ++ w :: post,
        loop pre ids acc = (Returns acc', ids'),
        py_str (Kod w) \in ids'
      & stock_of_quantity (Kolichestvo w) = Raises e].
Proof.
elim: inv ids acc => [|w rest IH] ids acc //=.
case: ifP => Hc.
- case E: (stock_of_quantity _) => [n|e'|] //.
  + rewrite /list_remove Hc => /IH [pre [w' [post [acc' [-> Hpre Hw' He]]]]].
    exists (w :: pre), w', post, acc'; split=> //=.
    by rewrite Hc E /list_remove Hc.
  + case=> <- <-.
    by exists [::], w, rest, acc.
- move=> /IH [pre [w' [post [acc' [-> Hpre Hw' He]]]]].
  exists (w :: pre), w', post, acc'; split=> //=.
  by rewrite Hc.
Qed.

(** The exception a quantity raises tells the cell: [TypeError] for a
    missing cell, [ValueError] for text that [int] refuses; an integer
    never raises. *)
Lemma stock_of_quantity_raises v e :
  stock_of_quantity v = Raises e ->
  match v with
  | PNone => e = TypeError
  | PStr q => e = ValueError /\ int_of_str q = None
  | PInt _ => False
  end.
Proof.
rewrite /stock_of_quantity.
case: ifP => // _; case: ifP => // _.
case: v => [|q|n] //=; first by case.
case: ifP => // _.
by case: (int_of_str q) => [k|] // [<-].
Qed.

End CreateStocksMore.

(** An integer is never written ">10", and is written "1" only when it
    is 1. *)
Lemma string_of_int_not_gt10 (n : Z) :
  (NilZero.string_of_int (Z.to_int n) == ">10") = false.
Proof.
apply/eqP => E; move: (int_of_str_decimal n).
by rewrite E.
Qed.

Lemma string_of_int_one (n : Z) :
  (NilZero.string_of_int (Z.to_int n) == "1") = (n == 1%Z).
Proof.
apply/eqP/eqP => [E|-> //].
by move: (int_of_str_decimal n); rewrite E => -[].
Qed.

(** X1.  Whatever the offer ids are, repeated or not: the list returned
    holds as many entries as there are offer ids, and each id is the sku
    of as many entries as the list of offer ids holds copies of it. *)
Theorem create_stocks_one_entry_per_offer_id
    (watch_remnants : seq watch) (offer_ids : seq string) (warehouse_id date : string)
    (stocks : seq stock) (left : seq string) :
  create_stocks watch_remnants offer_ids warehouse_id date = (Returns stocks, left) ->
  [/\ size stocks = size offer_ids,
      perm_eq (skus stocks) offer_ids
    & forall x, count_mem x (skus stocks) = count_mem x offer_ids].
Proof.
move=> H; have Hp := skus_create_stocks_perm H.
split=> //; first by rewrite -(perm_size Hp) /skus size_map.
by move=> x; exact: (permP Hp).
Qed.

Lemma create_stocks_one_entry_per_offer_id_witness :
  let stocks := [:: stock_entry "a" "w1" 5 "d"; stock_entry "a" "w1" 6 "d";
                    stock_entry "b" "w1" 0 "d"; stock_entry "a" "w1" 0 "d"] in
  let offer_ids := [:: "a"; "b"; "a"; "a"] in
  [/\ size stocks = size offer_ids,
      perm_eq (skus stocks) offer_ids
    & forall x, count_mem x (skus stocks) = count_mem x offer_ids].
Proof.
apply (@create_stocks_one_entry_per_offer_id
         [:: Watch (PStr "a") (PStr "5") PNone; Watch (PStr "a") (PStr "6") PNone]
         [:: "a"; "b"; "a"; "a"] "w1" "d" _ [:: "b"; "a"]).
reflexivity.
Defined.

(** X2.  Every entry of the list returned, from either loop, carries the
    warehouse id of the call and exactly one item, of type "FIT", with
    the one date the call computed at its start. *)
Theorem create_stocks_entries_of_the_call
    (watch_remnants : seq watch) (offer_ids : seq string) (warehouse_id date : string)
    (stocks : seq stock) (left : seq string) :
  create_stocks watch_remnants offer_ids warehouse_id date = (Returns stocks, left) ->
  all (entry_of_call warehouse_id date) stocks.
Proof.
case/create_stocks_returns => es [Hes -> _].
rewrite all_cat (entries_of_call Hes) all_map /=.
by apply/allP => x _; rewrite /entry_of_call /= !eqxx.
Qed.

Lemma create_stocks_entries_of_the_call_witness :
  all (entry_of_call "w1" "d")
      [:: stock_entry "sku1" "w1" 15 "d"; stock_entry "sku3" "w1" 0 "d"].
Proof.
apply (@create_stocks_entries_of_the_call [:: Watch (PStr "sku1") (PStr "15") PNone]
         [:: "sku1"; "sku3"] "w1" "d" _ [:: "sku3"]).
reflexivity.
Defined.

(** X3.  The rows whose code is not an offer id play no part: the call
    gives the same outcome and leaves the same list as on the inventory
    without them, whatever their quantity cells hold. *)
Theorem create_stocks_ignores_unknown_rows
    (watch_remnants : seq watch) (offer_ids : seq string) (warehouse_id date : string) :
  create_stocks watch_remnants offer_ids warehouse_id date =
  create_stocks [seq w <- watch_remnants | py_str (Kod w) \in offer_ids]
    offer_ids warehouse_id date.
Proof. exact: create_stocks_filter. Qed.

(** X4.  When no row carries an offer id (an empty inventory, an empty
    list of offer ids, or codes that are all unknown), the call returns
    one entry with count 0 per offer id, in their order, and leaves the
    caller's list as it was; no quantity is read, so none can raise. *)
Theorem create_stocks_nothing_matches
    (watch_remnants : seq watch) (offer_ids : seq string) (warehouse_id date : string) :
  ~~ has (fun w => py_str (Kod w) \in offer_ids) watch_remnants ->
  create_stocks watch_remnants offer_ids warehouse_id date =
  (Returns [seq stock_entry x warehouse_id 0 date | x <- offer_ids], offer_ids).
Proof.
rewrite create_stocks_filter has_count -eqn0Ngt -size_filter => /eqP/size0nil ->.
by [].
Qed.

Lemma create_stocks_nothing_matches_witness :
  create_stocks [:: Watch (PStr "sku9") (PStr "abc") PNone; Watch PNone PNone PNone]
    [:: "sku1"; "sku3"] "w1" "d" =
  (Returns [seq stock_entry x "w1" 0 "d" | x <- [:: "sku1"; "sku3"]], [:: "sku1"; "sku3"]).
Proof.
apply (@create_stocks_nothing_matches
         [:: Watch (PStr "sku9") (PStr "abc") PNone; Watch PNone PNone PNone]
         [:: "sku1"; "sku3"] "w1" "d").
reflexivity.
Defined.

(** X5.  The call raises only over the quantity of a row that matches:
    the rows before it went through, its code is in the working list
    they left, and reading its quantity raises the exception of the
    call: [TypeError] when the cell is missing, [ValueError] when it is
    text that [int] refuses.  [list.remove] never raises there.  The
    caller's list has by then lost the ids the rows before took. *)
Theorem create_stocks_raises_over_a_quantity
    (watch_remnants : seq watch) (offer_ids : seq string) (warehouse_id date : string)
    (e : exn) :
  (create_stocks watch_remnants offer_ids warehouse_id date).1 = Raises e ->
  exists pre w post,
    [/\ watch_remnants = pre ++ w :: post,
        is_ok (create_stocks pre offer_ids warehouse_id date).1,
        py_str (Kod w) \in remove_each (codes pre) offer_ids,
        stock_of_quantity (Kolichestvo w) = Raises e
      & (create_stocks watch_remnants offer_ids warehouse_id date).2
        = remove_each (codes pre) offer_ids]
    /\ match Kolichestvo w with
       | PNone => e = TypeError
       | PStr q => e = ValueError /\ int_of_str q = None
       | PInt _ => False
       end.
Proof.
rewrite {1 3}/create_stocks.
case E: (create_stocks_matched _ _ _ _ _) => [[acc|e'|] ids'] //= [Ee].
rewrite Ee in E.
case: (create_stocks_matched_raises E) => pre [w [post [acc' [Einv Hpre Hw He]]]].
have Eids := create_stocks_matched_left (seen := [::]) Hpre.
exists pre, w, post; split; last exact: stock_of_quantity_raises He.
by split=> //; rewrite -?Eids // /create_stocks Hpre.
Qed.

Lemma create_stocks_raises_over_a_quantity_witness :
  let inv := [:: Watch (PStr "sku1") (PStr "15") PNone;
                 Watch (PStr "sku2") (PStr "many") PNone;
                 Watch (PStr "sku3") (PStr "2") PNone] in
  let ids := [:: "sku1"; "sku2"; "sku3"] in
  exists pre w post,
    [/\ inv = pre ++ w :: post,
        is_ok (create_stocks pre ids "w1" "d").1,
        py_str (Kod w) \in remove_each (codes pre) ids,
        stock_of_quantity (Kolichestvo w) = Raises ValueError
      & (create_stocks inv ids "w1" "d").2 = remove_each (codes pre) ids]
    /\ match Kolichestvo w with
       | PNone => ValueError = TypeError
       | PStr q => ValueError = ValueError /\ int_of_str q = None
       | PInt _ => False
       end.
Proof.
apply (@create_stocks_raises_over_a_quantity
         [:: Watch (PStr "sku1") (PStr "15") PNone;
             Watch (PStr "sku2") (PStr "many") PNone;
             Watch (PStr "sku3") (PStr "2") PNone]
         [:: "sku1"; "sku2"; "sku3"] "w1" "d" ValueError).
reflexivity.
Defined.

(** X6.  A quantity cell that holds an integer never raises: the count
    is that integer, except that the integer 1 gives the count 0, its
    text being "1"; no integer is taken for ">10". *)
Theorem stock_of_quantity_integer_cell (n : small_int) :
  stock_of_quantity (PInt n) = Returns (if int_val n == 1%Z then 0%Z else int_val n).
Proof.
rewrite /stock_of_quantity /= string_of_int_not_gt10 string_of_int_one.
by case: ifP.
Qed.

(** The rows that match depend on the offer ids only through the number
    of copies of each id. *)
Lemma matching_perm (seen : seq string) (inv : seq watch) (ids ids' : seq string) :
  perm_eq ids ids' -> matching seen inv ids = matching seen inv ids'.
Proof.
move=> Hp; elim: inv seen => [|w rest IH] seen //=.
by rewrite (permP Hp) IH.
Qed.

(** X7.  The order of the offer ids bears only on the entries of the
    second loop: for two lists of offer ids that hold the same ids
    equally often, the entries of the matching rows are the same, and
    the ids left are the same up to their order. *)
Theorem create_stocks_order_of_offer_ids
    (watch_remnants : seq watch) (offer_ids offer_ids' : seq string)
    (warehouse_id date : string) (stocks : seq stock) (left : seq string) :
  perm_eq offer_ids offer_ids' ->
  create_stocks watch_remnants offer_ids warehouse_id date = (Returns stocks, left) ->
  exists es left',
    [/\ stocks = es ++ [seq stock_entry x warehouse_id 0 date | x <- left],
        create_stocks watch_remnants offer_ids' warehouse_id date
        = (Returns (es ++ [seq stock_entry x warehouse_id 0 date | x <- left']), left')
      & perm_eq left left'].
Proof.
move=> Hp /create_stocks_returns [es [Hes -> ->]].
exists es, (remove_each (codes watch_remnants) offer_ids'); split=> //.
  by apply: create_stocks_total; rewrite -(matching_perm _ _ Hp).
apply/allP => x _ /=; apply/eqP.
by rewrite !count_mem_remove_each (permP Hp).
Qed.

Lemma create_stocks_order_of_offer_ids_witness :
  exists es left',
    [/\ [:: stock_entry "sku1" "w1" 100 "d"; stock_entry "sku3" "w1" 0 "d";
            stock_entry "sku4" "w1" 0 "d"]
        = es ++ [seq stock_entry x "w1" 0 "d" | x <- [:: "sku3"; "sku4"]],
        create_stocks sample_inventory [:: "sku4"; "sku3"; "sku1"] "w1" "d"
        = (Returns (es ++ [seq stock_entry x "w1" 0 "d" | x <- left']), left')
      & perm_eq [:: "sku3"; "sku4"] left'].
Proof.
apply (@create_stocks_order_of_offer_ids sample_inventory [:: "sku1"; "sku3"; "sku4"]
         [:: "sku4"; "sku3"; "sku1"] "w1" "d"); reflexivity.
Defined.

(** ** More on [create_prices] *)

Lemma sequence_cat (A : Type) (a b : seq (outcome A)) :
  sequence (a ++ b) =
  match sequence a with
  | Returns la =>
    match sequence b with
    | Returns lb => Returns (la ++ lb)
    | Raises e => Raises e
    | NoAnswer => NoAnswer
    end
  | Raises e => Raises e
  | NoAnswer => NoAnswer
  end.
Proof.
elim: a => [|[x|e|] a IH] //=; first by case: (sequence b).
by rewrite IH; case: (sequence a) => //; case: (sequence b).
Qed.

(** In an inventory where no code comes twice, the rows that match are
    the rows whose code is an offer id. *)
Lemma matching_uniq_codes (seen : seq string) (inv : seq watch) (ids : seq string) :
  uniq (seen ++ codes inv) ->
  matching seen inv ids = [seq w <- inv | py_str (Kod w) \in ids].
Proof.
elim: inv seen => [|w rest IH] seen //=.
rewrite -cat_rcons => Hu; rewrite (IH _ Hu).
have Hw : py_str (Kod w) \notin seen.
  by move: Hu; rewrite cat_uniq rcons_uniq => /andP [/andP []].
by rewrite (count_memPn Hw) -has_count has_pred1.
Qed.

(** X8.  [create_prices] reads the offer ids only through membership
    tests and does not change them: two lists with the same members, in
    any order and with any repetition, give the same outcome. *)
Theorem create_prices_reads_membership_only
    (price_conversion : pyval -> result pyval)
    (watch_remnants : seq watch) (offer_ids offer_ids' : seq string) :
  offer_ids =i offer_ids' ->
  create_prices price_conversion watch_remnants offer_ids =
  create_prices price_conversion watch_remnants offer_ids'.
Proof.
move=> H; rewrite !create_prices_outcome.
congr (sequence (map _ _)); apply: eq_filter => w.
exact: H.
Qed.

Lemma create_prices_reads_membership_only_witness :
  create_prices price_conversion_digits sample_inventory [:: "sku1"; "sku3"] =
  create_prices price_conversion_digits sample_inventory [:: "sku3"; "sku1"; "sku1"].
Proof.
apply (@create_prices_reads_membership_only price_conversion_digits sample_inventory
         [:: "sku1"; "sku3"] [:: "sku3"; "sku1"; "sku1"]).
move=> x; rewrite !inE.
by case: (x == "sku1"); case: (x == "sku3").
Defined.

(** X9.  The price list of two inventories put end to end is the price
    list of the first followed by the price list of the second, both
    read against the same offer ids; the exception raised is the one of
    the first part that raises. *)
Theorem create_prices_over_concatenation
    (price_conversion : pyval -> result pyval)
    (first second : seq watch) (offer_ids : seq string) :
  create_prices price_conversion (first ++ second) offer_ids =
  match create_prices price_conversion first offer_ids with
  | Returns prices =>
    match create_prices price_conversion second offer_ids with
    | Returns prices' => Returns (prices ++ prices')
    | Raises e => Raises e
    | NoAnswer => NoAnswer
    end
  | Raises e => Raises e
  | NoAnswer => NoAnswer
  end.
Proof. by rewrite !create_prices_outcome filter_cat map_cat sequence_cat. Qed.

(** X10.  For an inventory in which no code comes twice, [create_stocks]
    and [create_prices] pick the same rows: the skus of the stock list
    are the ids of the price list, in order, followed by the offer ids
    that no row carries. *)
Theorem stocks_start_with_the_priced_ids
    (price_conversion : pyval -> result pyval)
    (watch_remnants : seq watch) (offer_ids : seq string) (warehouse_id date : string)
    (stocks : seq stock) (left : seq string) (prices : seq price) :
  uniq (codes watch_remnants) ->
  create_stocks watch_remnants offer_ids warehouse_id date = (Returns stocks, left) ->
  create_prices price_conversion watch_remnants offer_ids = Returns prices ->
  skus stocks = [seq price_id p | p <- prices] ++ left.
Proof.
move=> Hu Hs; rewrite create_prices_outcome => /sequence_ok Hp.
rewrite (skus_create_stocks Hs) (proj1 (price_results_ok Hp)) matching_uniq_codes //.
by case/create_stocks_returns: Hs => es [_ _ ->].
Qed.

Lemma stocks_start_with_the_priced_ids_witness :
  skus [:: stock_entry "sku1" "w1" 100 "d"; stock_entry "sku3" "w1" 0 "d"]
  = [seq price_id p | p <- [:: Price "sku1" (PriceValue 1500 "RUR")]] ++ [:: "sku3"].
Proof.
apply (@stocks_start_with_the_priced_ids price_conversion_digits sample_inventory
         [:: "sku1"; "sku3"] "w1" "d"); reflexivity.
Defined.

(** No row carries an id that is outside the codes. *)
Lemma filter_known_nil (inv : seq watch) (cs ids : seq string) :
  {subset codes inv <= cs} ->
  [seq w <- inv | py_str (Kod w) \in [seq x <- ids | x \notin cs]] = [::].
Proof.
elim: inv => [|w rest IH] //= Hsub.
rewrite mem_filter (Hsub (py_str (Kod w))) ?mem_head //=.
by apply: IH => x Hx; apply: Hsub; rewrite in_cons Hx orbT.
Qed.

(** X11.  The list of offer ids that [create_stocks] has consumed is of
    no use to [create_prices]: for offer ids free of repetition, the
    list left after the call holds the code of no inventory row, so
    [create_prices] run on it returns the empty list, without reading
    any price. *)
Theorem create_prices_on_the_consumed_list
    (price_conversion : pyval -> result pyval)
    (watch_remnants : seq watch) (offer_ids : seq string) (warehouse_id date : string)
    (stocks : seq stock) (left : seq string) :
  uniq offer_ids ->
  create_stocks watch_remnants offer_ids warehouse_id date = (Returns stocks, left) ->
  create_prices price_conversion watch_remnants left = Returns [::].
Proof.
move=> Hu /create_stocks_returns [es [_ _ ->]].
by rewrite create_prices_outcome remove_each_uniq // filter_known_nil.
Qed.

Lemma create_prices_on_the_consumed_list_witness :
  create_prices price_conversion_digits sample_inventory [:: "sku3"] = Returns [::].
Proof.
apply (@create_prices_on_the_consumed_list price_conversion_digits sample_inventory
         [:: "sku1"; "sku3"] "w1" "d"
         [:: stock_entry "sku1" "w1" 100 "d"; stock_entry "sku3" "w1" 0 "d"]);
  reflexivity.
Defined.

(** ** The listing loop of [get_offer_ids] *)

Section ListingLoop.

Variable W : world.
Variables (c t : string).

(** A run of the loop that returns: the pages asked for in turn, all of
    them but the last carrying a token. *)
Lemma get_offer_ids_pages_returns fuel page acc log l log' :
  get_offer_ids_pages W fuel page acc c t log = (Returns l, log') ->
  exists p ps,
    [/\ size ps < fuel,
        answered W c t log (page_tokens page (p :: ps)) (p :: ps),
        all more_pages (belast p ps) /\ nextPageToken (last p ps) = "",
        l = acc ++ flatten [seq offerMappingEntries q | q <- p :: ps]
      & log' = log ++ listing_requests (page_tokens page (p :: ps)) c t].
Proof.
elim: fuel page acc log => [|fuel IH] page acc log //=.
rewrite /bind {1}/get_product_list.
case E: (get_answer W log page c t) => [p|e] //.
case: ifP => Htok.
  case=> <- <-; exists p, [::]; split=> //=; rewrite ?cats0 ?cats1 //.
  by split=> //; exact/eqP.
move=> /IH [p' [ps [Hsz Hans [Hall Hlast] -> ->]]].
exists p, (p' :: ps); split=> //=.
- by split=> //; rewrite /more_pages Htok.
- by rewrite -catA.
- by rewrite cat_rcons.
Qed.

Lemma get_offer_ids_pages_run fuel page acc log p ps :
  size ps < fuel ->
  answered W c t log (page_tokens page (p :: ps)) (p :: ps) ->
  all more_pages (belast p ps) -> nextPageToken (last p ps) = "" ->
  get_offer_ids_pages W fuel page acc c t log =
  (Returns (acc ++ flatten [seq offerMappingEntries q | q <- p :: ps]),
   log ++ listing_requests (page_tokens page (p :: ps)) c t).
Proof.
elim: ps p fuel page acc log => [|p' ps IH] p [|fuel] page acc log //=.
  move=> _ [E _] _ Hlast.
  by rewrite /bind /get_product_list E Hlast eqxx cats0 cats1.
rewrite ltnS => Hsz [E Hans] /andP [Hp Hall] Hlast.
rewrite /bind {1}/get_product_list E (negbTE Hp).
by rewrite (IH p' fuel _ _ _ Hsz Hans Hall Hlast) catA cat_rcons.
Qed.

(** A run of the loop that raises: pages that all carry a token, then a
    request that the world refuses. *)
Lemma get_offer_ids_pages_raises fuel page acc log e log' :
  get_offer_ids_pages W fuel page acc c t log = (Raises e, log') ->
  exists ps,
    let sent := log ++ listing_requests (page_tokens page ps) c t in
    let token := last page [seq nextPageToken p | p <- ps] in
    [/\ size ps < fuel,
        all more_pages ps,
        answered W c t log (page_tokens page ps) ps,
        get_answer W sent token c t = Raise e
      & log' = rcons sent (Call (GetProductList token c t) (Some e))].
Proof.
elim: fuel page acc log => [|fuel IH] page acc log //=.
rewrite /bind {1}/get_product_list.
case E: (get_answer W log page c t) => [p|e'] //; last first.
  by case=> <- <-; exists [::]; split=> //=; rewrite cats0.
case: ifP => Htok //.
move=> /IH [ps [Hsz Hall Hans Hget ->]].
by exists (p :: ps); split=> //=; rewrite -?cat_rcons /more_pages ?Htok.
Qed.

(** As long as the pages carry tokens the loop goes on. *)
Lemma get_offer_ids_pages_goes_on fuel page acc log :
  (forall log page, exists2 p, get_answer W log page c t = Ok p & more_pages p) ->
  exists tokens,
    size tokens = fuel /\
    get_offer_ids_pages W fuel page acc c t log
    = (NoAnswer, log ++ listing_requests tokens c t).
Proof.
move=> H; elim: fuel page acc log => [|fuel IH] page acc log /=.
  by exists [::]; rewrite cats0.
case: (H log page) => p E Hp.
rewrite /bind {1}/get_product_list E (negbTE Hp).
case: (IH (nextPageToken p) (acc ++ offerMappingEntries p)
          (rcons log (Call (GetProductList page c t) None))) => tokens [Hsz ->].
by exists (page :: tokens); rewrite /= Hsz cat_rcons.
Qed.

End ListingLoop.

(** X12.  [get_offer_ids] returns exactly when the world answers a chain
    of pages within the bound: the first request carries the empty
    token, each next one the token of the page before, every page but
    the last carries a token and the last carries none.  The list
    returned holds the shopSku of every entry of these pages, in order,
    and one request was sent per page, none of them failed. *)
Theorem get_offer_ids_follows_the_tokens
    (W : world) (fuel : nat) (campaign_id market_token : string)
    (log : seq event) (offer_ids : seq string) (log' : seq event) :
  get_offer_ids W fuel campaign_id market_token log = (Returns offer_ids, log') <->
  exists p ps,
    [/\ size ps < fuel,
        answered W campaign_id market_token log (page_tokens "" (p :: ps)) (p :: ps),
        all more_pages (belast p ps) /\ nextPageToken (last p ps) = "",
        offer_ids = page_skus (p :: ps)
      & log' = log ++ listing_requests (page_tokens "" (p :: ps)) campaign_id market_token].
Proof.
split.
  move=> H; case: (bind_returns H) => {H} l [l1 []].
  move=> /get_offer_ids_pages_returns [p [ps [Hsz Hans Htok -> ->]]] [<- <-].
  by exists p, ps.
case=> p [ps [Hsz Hans [Hall Hlast] -> ->]].
rewrite /get_offer_ids /bind.
by rewrite (get_offer_ids_pages_run [::] Hsz Hans Hall Hlast).
Qed.

Lemma get_offer_ids_follows_the_tokens_witness :
  exists p ps,
    [/\ size ps < 5,
        answered paged_world "fbs" "token" [::] (page_tokens "" (p :: ps)) (p :: ps),
        all more_pages (belast p ps) /\ nextPageToken (last p ps) = "",
        [:: "sku1"; "sku2"; "sku3"] = page_skus (p :: ps)
      & [:: Call (GetProductList "" "fbs" "token") None;
            Call (GetProductList "p2" "fbs" "token") None]
        = [::] ++ listing_requests (page_tokens "" (p :: ps)) "fbs" "token"].
Proof.
apply (proj1 (@get_offer_ids_follows_the_tokens paged_world 5 "fbs" "token" [::]
                [:: "sku1"; "sku2"; "sku3"]
                [:: Call (GetProductList "" "fbs" "token") None;
                    Call (GetProductList "p2" "fbs" "token") None])).
reflexivity.
Defined.

(** X13.  [get_offer_ids] raises only what a listing request raises: the
    pages before all carried a token and were asked for in turn, the
    request for the next token failed, it is the last event of the run,
    and the ids gathered from the pages before are not returned. *)
Theorem get_offer_ids_raises_with_a_page
    (W : world) (fuel : nat) (campaign_id market_token : string)
    (log : seq event) (e : exn) (log' : seq event) :
  get_offer_ids W fuel campaign_id market_token log = (Raises e, log') ->
  exists ps,
    let sent := log ++ listing_requests (page_tokens "" ps) campaign_id market_token in
    let token := last "" [seq nextPageToken p | p <- ps] in
    [/\ size ps < fuel,
        all more_pages ps,
        answered W campaign_id market_token log (page_tokens "" ps) ps,
        get_answer W sent token campaign_id market_token = Raise e
      & log' = rcons sent (Call (GetProductList token campaign_id market_token) (Some e))].
Proof.
rewrite /get_offer_ids /bind.
case E: (get_offer_ids_pages _ _ _ _ _ _ _) => [[l|e'|] l1] //= [Ee El].
by move: E; rewrite Ee El => /get_offer_ids_pages_raises.
Qed.

Lemma get_offer_ids_raises_with_a_page_witness :
  exists ps,
    let sent := [::] ++ listing_requests (page_tokens "" ps) "fbs" "token" in
    let token := last "" [seq nextPageToken p | p <- ps] in
    [/\ size ps < 5,
        all more_pages ps,
        answered torn_world "fbs" "token" [::] (page_tokens "" ps) ps,
        get_answer torn_world sent token "fbs" "token" = Raise ConnectionError
      & [:: Call (GetProductList "" "fbs" "token") None;
            Call (GetProductList "p2" "fbs" "token") (Some ConnectionError)]
        = rcons sent (Call (GetProductList token "fbs" "token") (Some ConnectionError))].
Proof.
apply (@get_offer_ids_raises_with_a_page torn_world 5 "fbs" "token" [::] ConnectionError
         [:: Call (GetProductList "" "fbs" "token") None;
             Call (GetProductList "p2" "fbs" "token") (Some ConnectionError)]).
reflexivity.
Defined.

(** X14.  When every answer to a listing request of the campaign carries
    the token of a next page, [get_offer_ids] never returns and never
    raises: whatever the bound on the number of rounds, the loop is
    still running when the bound is reached, having sent one request per
    round. *)
Theorem get_offer_ids_never_ends
    (W : world) (campaign_id market_token : string) :
  (forall log page,
     exists2 p, get_answer W log page campaign_id market_token = Ok p & more_pages p) ->
  forall fuel log,
    exists tokens,
      size tokens = fuel /\
      get_offer_ids W fuel campaign_id market_token log
      = (NoAnswer, log ++ listing_requests tokens campaign_id market_token).
Proof.
move=> H fuel log; rewrite /get_offer_ids /bind.
case: (get_offer_ids_pages_goes_on fuel "" [::] log H) => tokens [Hsz ->].
by exists tokens.
Qed.

Lemma get_offer_ids_never_ends_witness :
  exists tokens,
    size tokens = 3 /\
    get_offer_ids endless_world 3 "fbs" "token" [::]
    = (NoAnswer, [::] ++ listing_requests tokens "fbs" "token").
Proof.
apply (@get_offer_ids_never_ends endless_world "fbs" "token").
intros log page; exists (Listing [:: Product "sku1"] "next"); reflexivity.
Defined.

(** ** Runs that raise *)

Lemma bind_raises A B (m : M A) (k : A -> M B) log e log' :
  bind m k log = (Raises e, log') ->
  m log = (Raises e, log')
  \/ exists a l1, m log = (Returns a, l1) /\ k a l1 = (Raises e, log').
Proof.
rewrite /bind; case: (m log) => [[a|e'|] l1] //; last by case=> -> ->; left.
by move=> H; right; exists a, l1.
Qed.

Section Raising.

Variable W : world.

(** A loop of [update_stocks] that raises: the batches before the one
    refused went through, the ones after it were not sent. *)
Lemma update_stocks_each_raises (bs : seq (seq stock)) c t log e log' :
  for_ bs (fun b => update_stocks W b c t) log = (Raises e, log') ->
  exists k,
    [/\ k < size bs,
        put_answer W (log ++ stock_requests (take k bs) c t) (nth [::] bs k) c t = Some e
      & log' = log ++ stock_requests (take k bs) c t
               ++ [:: Call (UpdateStocks (nth [::] bs k) c t) (Some e)]].
Proof.
elim: bs log => [|b bs IH] log //=.
move=> H; case: (bind_raises H) => {H}.
  rewrite /update_stocks; case E: (put_answer W log b c t) => [e'|] // [<- <-].
  by exists 0; split=> //=; rewrite ?cats0 ?cats1.
case=> -[] [l1 []]; rewrite /update_stocks.
case E: (put_answer W log b c t) => [e'|] // [<-] /IH [k [Hk Hput ->]].
by exists k.+1; split=> //=; rewrite -?cat_rcons.
Qed.

Lemma update_price_each_raises (bs : seq (seq price)) c t log e log' :
  for_ bs (fun b => update_price W b c t) log = (Raises e, log') ->
  exists k,
    [/\ k < size bs,
        post_answer W (log ++ price_requests (take k bs) c t) (nth [::] bs k) c t = Some e
      & log' = log ++ price_requests (take k bs) c t
               ++ [:: Call (UpdatePrice (nth [::] bs k) c t) (Some e)]].
Proof.
elim: bs log => [|b bs IH] log //=.
move=> H; case: (bind_raises H) => {H}.
  rewrite /update_price; case E: (post_answer W log b c t) => [e'|] // [<- <-].
  by exists 0; split=> //=; rewrite ?cats0 ?cats1.
case=> -[] [l1 []]; rewrite /update_price.
case E: (post_answer W log b c t) => [e'|] // [<-] /IH [k [Hk Hput ->]].
by exists k.+1; split=> //=; rewrite -?cat_rcons.
Qed.

(** Whatever its outcome, [get_offer_ids] adds listing requests of its
    campaign and nothing else. *)
Lemma get_offer_ids_log fuel c t log o log' :
  get_offer_ids W fuel c t log = (o, log') ->
  exists2 fetch, log' = log ++ fetch & all (listing_request c t) fetch.
Proof.
move=> H.
have He : emits (listing_request c t) (get_offer_ids W fuel c t).
  by apply: emits_get_offer_ids => page f /=; rewrite !eqxx.
by case: (He log) => fetch; rewrite H /= => -> Hf; exists fetch.
Qed.

End Raising.

(** The entries of the second loop are dropped by the filter of line 290. *)
Lemma filter_zero_entries (warehouse_id date : string) (ids : seq string) :
  [seq e <- [seq stock_entry x warehouse_id 0 date | x <- ids]
          | count_of e != Some 0%Z] = [::].
Proof. by elim: ids. Qed.

Lemma skus_filter_subseq (a : pred stock) (stocks : seq stock) :
  subseq (skus [seq e <- stocks | a e]) (skus stocks).
Proof. by rewrite filter_mask /skus map_mask; exact: mask_subseq. Qed.

(** X15.  What [upload_stocks] returns as [not_empty]: the entries of
    [stocks] whose count is not 0, in order.  None of them comes from the
    second loop of [create_stocks]: their skus are codes of inventory
    rows, in the order of the inventory. *)
Theorem upload_stocks_not_empty
    (divide : forall A : Type, seq A -> nat -> seq (seq A)) (W : world) (fuel : nat)
    (watch_remnants : seq watch) (campaign_id market_token warehouse_id : string)
    (log : seq event) (not_empty stocks : seq stock) (log' : seq event) :
  await (upload_stocks divide W fuel watch_remnants campaign_id market_token warehouse_id) log
    = (Returns (not_empty, stocks), log') ->
  [/\ not_empty = [seq e <- stocks | count_of e != Some 0%Z],
      subseq (skus not_empty) (skus stocks)
    & subseq (skus not_empty) (codes watch_remnants)].
Proof.
move=> /= H.
case: (bind_returns H) => {H} ids [l1 [_ H]].
case: (bind_returns H) => {H} ss [l2 []].
move=> /create_stocks_now_returns [_ Hs] H.
case: (bind_returns H) => {H} -[] [l3 [_ [<- <- _]]].
split=> //; first exact: skus_filter_subseq.
move: Hs; case E: (create_stocks _ _ _ _) => [o left] /= Ho; rewrite Ho in E.
case: (create_stocks_returns E) => es [Hes -> _].
rewrite filter_cat filter_zero_entries cats0.
apply: subseq_trans (skus_filter_subseq _ es) _.
rewrite (skus_entries Hes).
case: (matching_mask [::] watch_remnants ids) => m [Hm ->].
by rewrite /codes map_mask; exact: mask_subseq.
Qed.

Lemma upload_stocks_not_empty_witness :
  let not_empty := [:: stock_entry "sku1" "wh" 100 "2023-10-10T12:34:56Z"] in
  let stocks := [:: stock_entry "sku1" "wh" 100 "2023-10-10T12:34:56Z";
                    stock_entry "sku3" "wh" 0 "2023-10-10T12:34:56Z"] in
  [/\ not_empty = [seq e <- stocks | count_of e != Some 0%Z],
      subseq (skus not_empty) (skus stocks)
    & subseq (skus not_empty) (codes sample_inventory)].
Proof.
apply (@upload_stocks_not_empty divide_chunks calm_world 5 sample_inventory
         "fbs" "token" "wh" [::] _ _
         [:: Call (GetProductList "" "fbs" "token") None;
             Call (UpdateStocks
                     [:: stock_entry "sku1" "wh" 100 "2023-10-10T12:34:56Z";
                         stock_entry "sku3" "wh" 0 "2023-10-10T12:34:56Z"]
                     "fbs" "token") None]).
reflexivity.
Defined.

Section UploadFailures.

Variable divide : forall A : Type, seq A -> nat -> seq (seq A).

(** X16.  The three ways [upload_stocks], once awaited, raises.  The
    listing failed, or [create_stocks] raised: then the run added
    listing requests only, and no stock was sent.  Or the request for
    one batch was refused: then the batches before it were sent, in
    order, the refused request is the last event, and no later batch was
    sent. *)
Theorem upload_stocks_stops_at_the_failure (W : world) (fuel : nat)
    (watch_remnants : seq watch) (campaign_id market_token warehouse_id : string)
    (log : seq event) (e : exn) (log' : seq event) :
  await (upload_stocks divide W fuel watch_remnants campaign_id market_token warehouse_id) log
    = (Raises e, log') ->
  exists fetch,
    all (listing_request campaign_id market_token) fetch /\
    [\/ get_offer_ids W fuel campaign_id market_token log = (Raises e, log')
        /\ log' = log ++ fetch,
        exists offer_ids,
          [/\ get_offer_ids W fuel campaign_id market_token log = (Returns offer_ids, log'),
              log' = log ++ fetch
            & (create_stocks watch_remnants offer_ids warehouse_id (utcnow W log')).1
              = Raises e]
      | exists offer_ids stocks k,
          let batches := divide stocks 2000 in
          [/\ get_offer_ids W fuel campaign_id market_token log
                = (Returns offer_ids, log ++ fetch),
              (create_stocks watch_remnants offer_ids warehouse_id
                 (utcnow W (log ++ fetch))).1 = Returns stocks,
              k < size batches
            & log' = log ++ fetch
                     ++ stock_requests (take k batches) campaign_id market_token
                     ++ [:: Call (UpdateStocks (nth [::] batches k) campaign_id market_token)
                                 (Some e)]]].
Proof.
move=> /= H; case: (bind_raises H) => {H}.
  move=> H; case: (get_offer_ids_log H) => fetch Hl Hf.
  by exists fetch; split=> //; constructor 1.
case=> ids [l1 [Hids H]].
case: (get_offer_ids_log Hids) => fetch Hl Hf.
exists fetch; split=> //.
case: (bind_raises H) => {H}.
  rewrite /create_stocks_now /lift => -[Ho El]; rewrite -El in Hids *.
  by constructor 2; exists ids.
case=> stocks [l2 [/create_stocks_now_returns [El Hs] H]]; rewrite El in H * => {l2 El}.
case: (bind_raises H) => {H}; last by case=> -[] [l3 []].
move=> /update_stocks_each_raises [k [Hk _ ->]].
constructor 3; exists ids, stocks, k; rewrite Hl in Hids Hs *.
by split=> //; rewrite -catA.
Qed.

(** X17.  The three ways [upload_prices], once awaited, raises.  The
    listing failed, or [create_prices] raised: then the run added
    listing requests only, and no price was sent.  Or the request for
    one batch was refused: then the batches before it were sent, in
    order, the refused request is the last event, and no later batch was
    sent. *)
Theorem upload_prices_stops_at_the_failure
    (price_conversion : pyval -> result pyval) (W : world) (fuel : nat)
    (watch_remnants : seq watch) (campaign_id market_token : string)
    (log : seq event) (e : exn) (log' : seq event) :
  await (upload_prices divide price_conversion W fuel watch_remnants campaign_id market_token)
    log = (Raises e, log') ->
  exists fetch,
    all (listing_request campaign_id market_token) fetch /\
    [\/ get_offer_ids W fuel campaign_id market_token log = (Raises e, log')
        /\ log' = log ++ fetch,
        exists offer_ids,
          [/\ get_offer_ids W fuel campaign_id market_token log = (Returns offer_ids, log'),
              log' = log ++ fetch
            & create_prices price_conversion watch_remnants offer_ids = Raises e]
      | exists offer_ids prices k,
          let batches := divide prices 500 in
          [/\ get_offer_ids W fuel campaign_id market_token log
                = (Returns offer_ids, log ++ fetch),
              create_prices price_conversion watch_remnants offer_ids = Returns prices,
              k < size batches
            & log' = log ++ fetch
                     ++ price_requests (take k batches) campaign_id market_token
                     ++ [:: Call (UpdatePrice (nth [::] batches k) campaign_id market_token)
                                 (Some e)]]].
Proof.
move=> /= H; case: (bind_raises H) => {H}.
  move=> H; case: (get_offer_ids_log H) => fetch Hl Hf.
  by exists fetch; split=> //; constructor 1.
case=> ids [l1 [Hids H]].
case: (get_offer_ids_log Hids) => fetch Hl Hf.
exists fetch; split=> //.
case: (bind_raises H) => {H}.
  rewrite /lift => -[Ho El]; rewrite -El in Hids *.
  by constructor 2; exists ids.
case=> prices [l2 []]; rewrite /lift => -[Hp El] H; rewrite -El in H => {l2 El}.
case: (bind_raises H) => {H}; last by case=> -[] [l3 []].
move=> /update_price_each_raises [k [Hk _ ->]].
constructor 3; exists ids, prices, k; rewrite Hl in Hids *.
by split=> //; rewrite -catA.
Qed.

End UploadFailures.

Lemma upload_stocks_stops_at_the_failure_witness :
  let log' := [:: Call (GetProductList "" "fbs" "token") None;
                  Call (UpdateStocks
                          [:: stock_entry "sku1" "wh" 100 "2023-10-10T12:34:56Z";
                              stock_entry "sku3" "wh" 0 "2023-10-10T12:34:56Z"]
                          "fbs" "token") (Some HTTPError)] in
  exists fetch,
    all (listing_request "fbs" "token") fetch /\
    [\/ get_offer_ids refusing_world 5 "fbs" "token" [::] = (Raises HTTPError, log')
        /\ log' = [::] ++ fetch,
        exists offer_ids,
          [/\ get_offer_ids refusing_world 5 "fbs" "token" [::] = (Returns offer_ids, log'),
              log' = [::] ++ fetch
            & (create_stocks sample_inventory offer_ids "wh" (utcnow refusing_world log')).1
              = Raises HTTPError]
      | exists offer_ids stocks k,
          let batches := divide_chunks stocks 2000 in
          [/\ get_offer_ids refusing_world 5 "fbs" "token" [::]
                = (Returns offer_ids, [::] ++ fetch),
              (create_stocks sample_inventory offer_ids "wh"
                 (utcnow refusing_world ([::] ++ fetch))).1 = Returns stocks,
              k < size batches
            & log' = [::] ++ fetch
                     ++ stock_requests (take k batches) "fbs" "token"
                     ++ [:: Call (UpdateStocks (nth [::] batches k) "fbs" "token")
                                 (Some HTTPError)]]].
Proof.
apply (@upload_stocks_stops_at_the_failure divide_chunks refusing_world 5 sample_inventory
         "fbs" "token" "wh" [::] HTTPError).
reflexivity.
Defined.

Lemma upload_prices_stops_at_the_failure_witness :
  let log' := [:: Call (GetProductList "" "fbs" "token") None;
                  Call (UpdatePrice [:: Price "sku1" (PriceValue 1500 "RUR")]
                          "fbs" "token") (Some HTTPError)] in
  exists fetch,
    all (listing_request "fbs" "token") fetch /\
    [\/ get_offer_ids refusing_world 5 "fbs" "token" [::] = (Raises HTTPError, log')
        /\ log' = [::] ++ fetch,
        exists offer_ids,
          [/\ get_offer_ids refusing_world 5 "fbs" "token" [::] = (Returns offer_ids, log'),
              log' = [::] ++ fetch
            & create_prices price_conversion_digits sample_inventory offer_ids
              = Raises HTTPError]
      | exists offer_ids prices k,
          let batches := divide_chunks prices 500 in
          [/\ get_offer_ids refusing_world 5 "fbs" "token" [::]
                = (Returns offer_ids, [::] ++ fetch),
              create_prices price_conversion_digits sample_inventory offer_ids
                = Returns prices,
              k < size batches
            & log' = [::] ++ fetch
                     ++ price_requests (take k batches) "fbs" "token"
                     ++ [:: Call (UpdatePrice (nth [::] batches k) "fbs" "token")
                                 (Some HTTPError)]]].
Proof.
apply (@upload_prices_stops_at_the_failure divide_chunks price_conversion_digits
         refusing_world 5 sample_inventory "fbs" "token" [::] HTTPError).
reflexivity.
Defined.

(** ** More on the runs of [main] *)

Section MainMore.

Variable divide : forall A : Type, seq A -> nat -> seq (seq A).
Variable price_conversion : pyval -> result pyval.
Variable W : world.

(** The [try] block prints nothing itself. *)
Lemma main_try_silent fuel inv t fbs dbs wf wd log :
  exists2 new,
    (main_try divide price_conversion W fuel inv t fbs dbs wf wd log).2 = log ++ new
    & silent new.
Proof.
apply: emits_bind => [|ids1]; first exact: emits_get_offer_ids.
apply: emits_bind => [|stocks1]; first exact: emits_create_stocks_now.
apply: emits_bind => [|_]; first by apply: emits_for => b; exact: emits_update_stocks.
apply: emits_bind => [|ids2]; first exact: emits_get_offer_ids.
apply: emits_bind => [|stocks2]; first exact: emits_create_stocks_now.
apply: emits_bind => [|_]; first by apply: emits_for => b; exact: emits_update_stocks.
exact: emits_ret.
Qed.

(** X18.  When one of the five variables that [main] reads is not set,
    [main] raises the error of [environs] before anything else happens:
    nothing is downloaded, no request is sent, nothing is printed. *)
Theorem main_stops_at_a_missing_variable (fuel : nat) (log : seq event) :
  has (fun name => environ W name == None) main_variables ->
  main divide price_conversion W fuel log = (Raises EnvError, log).
Proof.
rewrite /main_variables /= orbF /main /bind /env_str.
case: (environ W "MARKET_TOKEN") => [t|] //=.
case: (environ W "FBS_ID") => [fbs|] //=.
case: (environ W "DBS_ID") => [dbs|] //=.
case: (environ W "WAREHOUSE_FBS_ID") => [wf|] //=.
by case: (environ W "WAREHOUSE_DBS_ID") => [wd|].
Qed.

(** X19.  The download of the inventory stands before the [try] block:
    when it raises, with the five variables set, the exception leaves
    [main]; no handler runs, nothing is printed, and no request is sent
    to the marketplace. *)
Theorem main_lets_a_download_failure_out (fuel : nat) (log : seq event) (e : exn) :
  all (fun name => isSome (environ W name)) main_variables ->
  download_stock_answer W log = Raise e ->
  main divide price_conversion W fuel log
  = (Raises e, rcons log (Call DownloadStock (Some e))).
Proof.
rewrite /main_variables /= andbT /main /bind /env_str.
case: (environ W "MARKET_TOKEN") => [t|] //=.
case: (environ W "FBS_ID") => [fbs|] //=.
case: (environ W "DBS_ID") => [dbs|] //=.
case: (environ W "WAREHOUSE_FBS_ID") => [wf|] //=.
case: (environ W "WAREHOUSE_DBS_ID") => [wd|] //= _.
by rewrite /download_stock => ->.
Qed.

(** X20.  Once the inventory is downloaded, no exception leaves [main]:
    whatever the [try] block raises is caught.  The run prints at most
    one message, the one for the exception caught, and it is the last
    event of the run. *)
Theorem main_catches_what_the_try_raises
    (fuel : nat) (log : seq event) (watch_remnants : seq watch) :
  all (fun name => isSome (environ W name)) main_variables ->
  download_stock_answer W log = Ok watch_remnants ->
  exists new,
    (main divide price_conversion W fuel log).2 = log ++ Call DownloadStock None :: new
    /\ match (main divide price_conversion W fuel log).1 with
       | Returns _ => silent new \/ exists pre e, new = rcons pre (report e) /\ silent pre
       | Raises _ => False
       | NoAnswer => silent new
       end.
Proof.
rewrite /main_variables /= andbT /main /bind /env_str.
case: (environ W "MARKET_TOKEN") => [t|] //=.
case: (environ W "FBS_ID") => [fbs|] //=.
case: (environ W "DBS_ID") => [dbs|] //=.
case: (environ W "WAREHOUSE_FBS_ID") => [wf|] //=.
case: (environ W "WAREHOUSE_DBS_ID") => [wd|] //= _.
rewrite /download_stock => -> /=; rewrite /try_except.
case: (main_try_silent fuel watch_remnants t fbs dbs wf wd
         (rcons log (Call DownloadStock None))) => new.
case: (main_try _ _ _ _ _ _ _ _ _ _ _) => [[[]|e|] l1] /= -> Hnew.
- by exists new; rewrite -cats1 -catA; split=> //; left.
- rewrite main_exceptE /=; exists (rcons new (report e)).
  rewrite -cats1 -[rcons log _]cats1 -!catA cats1; split=> //.
  by right; exists new, e.
- by exists new; rewrite -cats1 -catA.
Qed.

End MainMore.

Lemma main_stops_at_a_missing_variable_witness :
  main divide_chunks price_conversion_digits unset_world 5 [::] = (Raises EnvError, [::]).
Proof.
apply (@main_stops_at_a_missing_variable divide_chunks price_conversion_digits unset_world
         5 [::]).
reflexivity.
Defined.

Lemma main_lets_a_download_failure_out_witness :
  main divide_chunks price_conversion_digits offline_world 5 [::]
  = (Raises ReadTimeout, [:: Call DownloadStock (Some ReadTimeout)]).
Proof.
apply (@main_lets_a_download_failure_out divide_chunks price_conversion_digits offline_world
         5 [::] ReadTimeout); reflexivity.
Defined.

Lemma main_catches_what_the_try_raises_witness :
  exists new,
    (main divide_chunks price_conversion_digits timeout_world 5 [::]).2
      = [::] ++ Call DownloadStock None :: new
    /\ match (main divide_chunks price_conversion_digits timeout_world 5 [::]).1 with
       | Returns _ => silent new \/ exists pre e, new = rcons pre (report e) /\ silent pre
       | Raises _ => False
       | NoAnswer => silent new
       end.
Proof.
apply (@main_catches_what_the_try_raises divide_chunks price_conversion_digits timeout_world
         5 [::] sample_inventory); reflexivity.
Defined.

(** X21.  A quantity refused while the stocks of the FBS campaign are
    built ends the run of [main] before any stock is sent: the exception
    is a [ValueError] or a [TypeError], the last handler prints it with
    "ERROR_2", [main] returns, and the run holds the download and the
    listing requests of the FBS campaign only. *)
Theorem main_reports_a_refused_quantity
    (divide : forall A : Type, seq A -> nat -> seq (seq A))
    (price_conversion : pyval -> result pyval) (W : world) (fuel : nat)
    (log : seq event) (t fbs dbs wf wd : string)
    (watch_remnants : seq watch) (offer_ids : seq string) (log1 : seq event) (e : exn) :
  [/\ environ W "MARKET_TOKEN" = Some t,
      environ W "FBS_ID" = Some fbs, environ W "DBS_ID" = Some dbs,
      environ W "WAREHOUSE_FBS_ID" = Some wf
    & environ W "WAREHOUSE_DBS_ID" = Some wd] ->
  download_stock_answer W log = Ok watch_remnants ->
  get_offer_ids W fuel fbs t (rcons log (Call DownloadStock None))
    = (Returns offer_ids, log1) ->
  (create_stocks watch_remnants offer_ids wf (utcnow W log1)).1 = Raises e ->
  main divide price_conversion W fuel log
    = (Returns tt, rcons log1 (Print (Some e) "ERROR_2"))
  /\ exists2 fetch,
       log1 = log ++ Call DownloadStock None :: fetch & all (listing_request fbs t) fetch.
Proof.
case=> Et Ef Ed Ewf Ewd Hdl Hids Hs; split; last first.
  case: (get_offer_ids_log Hids) => fetch -> Hf.
  by exists fetch; rewrite // -cats1 -catA.
have He : e = ValueError \/ e = TypeError.
  move: Hs; case E: (create_stocks _ _ _ _) => [o ids'] /= Ho; rewrite Ho in E.
  move: E; rewrite /create_stocks.
  case E: (create_stocks_matched _ _ _ _ _) => [[acc|e'|] ids''] // [Ee _].
  rewrite Ee in E.
  case: (create_stocks_matched_raises E) => pre [w [post [acc' [_ _ _]]]].
  move/stock_of_quantity_raises.
  by case: (Kolichestvo w) => [|q|n] //; [right | case; left].
rewrite /main /bind /env_str Et Ef Ed Ewf Ewd /=.
rewrite /download_stock Hdl /try_except /main_try /bind Hids /= Hs main_exceptE /report.
by case: He => ->.
Qed.

Lemma main_reports_a_refused_quantity_witness :
  main divide_chunks price_conversion_digits muddled_world 5 [::]
    = (Returns tt,
       rcons [:: Call DownloadStock None; Call (GetProductList "" "fbs" "token") None]
             (Print (Some ValueError) "ERROR_2"))
  /\ exists2 fetch,
       [:: Call DownloadStock None; Call (GetProductList "" "fbs" "token") None]
       = [::] ++ Call DownloadStock None :: fetch
       & all (listing_request "fbs" "token") fetch.
Proof.
apply (@main_reports_a_refused_quantity divide_chunks price_conversion_digits muddled_world 5
         [::] "token" "fbs" "dbs" "wh_fbs" "wh_dbs"
         [:: Watch (PStr "sku1") (PStr "many") (PStr "1 500.00 rub.");
             Watch (PStr "sku2") (PStr "1") (PStr "2000")]
         [:: "sku1"; "sku3"]); try reflexivity.
split; reflexivity.
Defined.

(** ** From the listing to the batches *)

Section EndToEnd.

Variable divide : forall A : Type, seq A -> nat -> seq (seq A).

Hypothesis divide_flatten :
  forall (A : Type) (l : seq A) (n : nat), 0 < n -> flatten (divide l n) = l.

Variable price_conversion : pyval -> result pyval.
Variable W : world.

(** X22.  Under the Batcher's contract for [divide] (the chunks put
    together give the list back): when [upload_stocks], once awaited,
    returns, the batches it sent hold, between them, exactly one entry for
    each offer the listing gave, repeated ids counted as often as
    listed; the run is the listing requests, one per page, followed by
    one request per batch. *)
Theorem upload_stocks_covers_the_listing (fuel : nat)
    (watch_remnants : seq watch) (campaign_id market_token warehouse_id : string)
    (log : seq event) (not_empty stocks : seq stock) (log' : seq event) :
  await (upload_stocks divide W fuel watch_remnants campaign_id market_token warehouse_id) log
    = (Returns (not_empty, stocks), log') ->
  exists p ps,
    [/\ answered W campaign_id market_token log (page_tokens "" (p :: ps)) (p :: ps),
        log' = log ++ listing_requests (page_tokens "" (p :: ps)) campaign_id market_token
                   ++ stock_requests (divide stocks 2000) campaign_id market_token,
        perm_eq (skus (flatten (divide stocks 2000))) (page_skus (p :: ps))
      & size (flatten (divide stocks 2000)) = size (page_skus (p :: ps))].
Proof.
move=> H; case: (bind_returns H) => {H} ids [l1 [Hids]].
case: (bind_returns Hids) => {Hids} l [l0 []].
move=> /get_offer_ids_pages_returns [p [ps [Hsz Hans Htok -> ->]]] [<- <-] H.
case: (bind_returns H) => {H} ss [l2 []].
move=> /create_stocks_now_returns [-> Hs] H.
case: (bind_returns H) => {H} -[] [l3 []].
move=> /update_stocks_each_returns -> [_ <- <-].
move: Hs; case E: (create_stocks _ _ _ _) => [o left] /= Ho; rewrite Ho in E.
have Hp := skus_create_stocks_perm E.
exists p, ps; rewrite divide_flatten // -catA; split=> //.
by rewrite -(perm_size Hp) /skus size_map.
Qed.



(** X24.  When [upload_prices], once awaited, returns, every price entry
    in the batches it sent is for an offer that the listing gave; the
    run is one listing request per page followed by one request per
    batch. *)
Theorem upload_prices_sends_listed_offers_only
    (fuel : nat) (watch_remnants : seq watch) (campaign_id market_token : string)
    (log : seq event) (prices : seq price) (log' : seq event) :
  await (upload_prices divide price_conversion W fuel watch_remnants campaign_id market_token)
    log = (Returns prices, log') ->
  exists pages,
    [/\ answered W campaign_id market_token log (page_tokens "" pages) pages,
        log' = log ++ listing_requests (page_tokens "" pages) campaign_id market_token
                   ++ price_requests (divide prices 500) campaign_id market_token
      & all (fun p => price_id p \in page_skus pages) (flatten (divide prices 500))].
Proof.
move=> H; case: (bind_returns H) => {H} ids [l1 [Hids]].
case: (bind_returns Hids) => {Hids} l [l0 []].
move=> /get_offer_ids_pages_returns [p [ps [Hsz Hans Htok -> ->]]] [<- <-] H.
case: (bind_returns H) => {H} ps' [l2 []].
case Eps: (create_prices _ _ _) => [ps''||] //= [<- <-] H.
case: (bind_returns H) => {H} -[] [l3 []].
move=> /update_price_each_returns -> [<- <-].
exists (p :: ps); rewrite divide_flatten // -catA; split=> //.
move: Eps; rewrite create_prices_outcome => /sequence_ok /price_results_ok [Hid _].
rewrite -(all_map price_id (fun x => x \in page_skus (p :: ps))) Hid /codes all_map.
exact: filter_all.
Qed.

End EndToEnd.

Lemma upload_stocks_covers_the_listing_witness :
  let stocks := [:: stock_entry "sku1" "wh" 100 "2023-10-10T12:34:56Z";
                    stock_entry "sku2" "wh" 0 "2023-10-10T12:34:56Z";
                    stock_entry "sku3" "wh" 0 "2023-10-10T12:34:56Z"] in
  exists p ps,
    [/\ answered paged_world "fbs" "token" [::] (page_tokens "" (p :: ps)) (p :: ps),
        [:: Call (GetProductList "" "fbs" "token") None;
            Call (GetProductList "p2" "fbs" "token") None;
            Call (UpdateStocks stocks "fbs" "token") None]
        = [::] ++ listing_requests (page_tokens "" (p :: ps)) "fbs" "token"
               ++ stock_requests (divide_chunks stocks 2000) "fbs" "token",
        perm_eq (skus (flatten (divide_chunks stocks 2000))) (page_skus (p :: ps))
      & size (flatten (divide_chunks stocks 2000)) = size (page_skus (p :: ps))].
Proof.
apply (@upload_stocks_covers_the_listing divide_chunks divide_chunks_flatten paged_world 5
         sample_inventory "fbs" "token" "wh" [::]
         [:: stock_entry "sku1" "wh" 100 "2023-10-10T12:34:56Z"]).
reflexivity.
Defined.


Lemma upload_prices_sends_listed_offers_only_witness :
  let prices := [:: Price "sku1" (PriceValue 1500 "RUR"); Price "sku2" (PriceValue 2000 "RUR")] in
  exists pages,
    [/\ answered paged_world "fbs" "token" [::] (page_tokens "" pages) pages,
        [:: Call (GetProductList "" "fbs" "token") None;
            Call (GetProductList "p2" "fbs" "token") None;
            Call (UpdatePrice prices "fbs" "token") None]
        = [::] ++ listing_requests (page_tokens "" pages) "fbs" "token"
               ++ price_requests (divide_chunks prices 500) "fbs" "token"
      & all (fun p => price_id p \in page_skus pages) (flatten (divide_chunks prices 500))].
Proof.
apply (@upload_prices_sends_listed_offers_only divide_chunks divide_chunks_flatten
         price_conversion_digits paged_world 5 sample_inventory "fbs" "token" [::]).
reflexivity.
Defined.
